(** * Threat-Intelligence-Service: evidence resolution, distribution fitting
    and Monte Carlo simulation

  A shallow embedding of [graph.py], [regenerate_distributions.py] and
  [montecarlo.py].

  - Numbers read from the graph database are Python floats, hence dyadic
    rationals: they are modelled as [Q] and the resolver stays executable.
    Arithmetic on them is exact (no rounding).
  - Code that goes through [np.log], [np.sqrt], [np.exp] or [**] is
    modelled over [R].
  - Python exceptions are values of an error monad; [None] is [option].
  - The Neo4j store is a record of node and relationship lists. *)

From Stdlib Require Import List Sorted String Bool Arith ZArith Lia.
From Stdlib Require Import QArith Qround Qreals.
From Stdlib Require Import Reals Lra.
From Stdlib Require Lqa.
Import ListNotations.

Set Implicit Arguments.

(* ================================================================== *)
(** * Python values and exceptions *)
(* ================================================================== *)

Module Py.

(** The exceptions the three modules can raise. *)
Inductive exn : Type :=
| IndexError
| TypeError
| ZeroDivisionError
| AttributeError
| ValueError
| LinAlgError
| Exception (msg : string).

Inductive result (A : Type) : Type :=
| Return (a : A)
| Raise (e : exn).

Arguments Return {A} a.
Arguments Raise {A} e.

Definition bind {A B : Type} (c : result A) (k : A -> result B) : result B :=
  match c with
  | Return a => k a
  | Raise e => Raise e
  end.

(** A list comprehension whose body may raise: elements are evaluated
    left to right and the first exception escapes. *)
Fixpoint mapM {A B : Type} (f : A -> result B) (l : list A) : result (list B) :=
  match l with
  | [] => Return []
  | x :: l' =>
      bind (f x) (fun y => bind (mapM f l') (fun ys => Return (y :: ys)))
  end.

(** Truthiness of a value that is [None] or a number: [None] and [0] are
    falsy. *)
Definition truthy (v : option Q) : bool :=
  match v with
  | None => false
  | Some q => negb (Qeq_bool q 0)
  end.

(** [x or y]: [x] when [x] is truthy, else [y]. *)
Definition or_ (x y : option Q) : option Q :=
  if truthy x then x else y.

(** [sum(values)]: the built-in starts from [0] and adds left to right. *)
Definition sum (values : list Q) : Q := fold_left Qplus values 0.

(** [len(values)] as a number. *)
Definition len {A : Type} (values : list A) : Q :=
  inject_Z (Z.of_nat (List.length values)).

(** [int(x)]: truncation towards zero. *)
Definition int (x : Q) : Z := Z.quot (Qnum x) (Zpos (Qden x)).

End Py.

Import Py.

Declare Scope py_scope.
Delimit Scope py_scope with py.
Notation "x <- c ;; k" := (bind c (fun x => k))
(at level 61, c at next level, right associativity) : py_scope.

(* ================================================================== *)
(** * graph.py *)
(* ================================================================== *)

Module GraphInterface.

Local Open Scope Q_scope.
Local Open Scope string_scope.
Local Open Scope py_scope.

(** ** The store *)

(** Evidence nodes, by label, with the properties the resolver reads. *)
Inductive Node : Type :=
| IncidentProbability (probability : Q)
| IncidentCostAverages (mean median : Q).

Inductive RelType : Type := FOR_SIZE | FOR_INDUSTRY.

(** A relationship from an evidence node to the [Size] or [Industry] node
    called [end_node]. *)
Record Relationship : Type := {
  r_type : RelType;
  start_node : Node;
  end_node : string
}.

(** An [IncidentFrequencyDistribution] node together with the names of the
    [Size] and [Industry] nodes its [FOR_SIZE] and [FOR_INDUSTRY]
    relationships point to (see
    [create_incident_frequency_distribution_node]). *)
Record FrequencyNode : Type := {
  fn_size : string;
  fn_industry : string;
  fn_a : Q;
  fn_b : Q
}.

(** Likewise for [IncidentCostsDistribution]. *)
Record CostsNode : Type := {
  cn_size : string;
  cn_industry : string;
  cn_mean : Q;
  cn_stddev : Q
}.

(** [Size] and [Industry] nodes are identified by their [name]. *)
Record Graph : Type := {
  Size : list string;
  Industry : list string;
  relationships : list Relationship;
  IncidentBaseFrequencyProbabilities : list (list Q);
  IncidentFrequencyDistribution : list FrequencyNode;
  IncidentCostsDistribution : list CostsNode
}.

Inductive NodeLabel : Type := SizeLabel | IndustryLabel.

(** [_get_node(label, name=...)]: the first node of that label and name,
    or [None]. A node that is found carries its [name] property, so it is
    truthy in [if size_node:]. *)
Definition _get_node (g : Graph) (label : NodeLabel) (name : string)
  : option string :=
  find (String.eqb name)
       (match label with SizeLabel => Size g | IndustryLabel => Industry g end).

Definition RelType_eqb (x y : RelType) : bool :=
  match x, y with
  | FOR_SIZE, FOR_SIZE | FOR_INDUSTRY, FOR_INDUSTRY => true
  | _, _ => false
  end.

(** [g.match({node}, r_type=t)]: the relationships of type [t] that touch
    the node. *)
Definition match_ (g : Graph) (node : string) (t : RelType)
  : list Relationship :=
  filter (fun rel => RelType_eqb (r_type rel) t && String.eqb (end_node rel) node)
         (relationships g).

(** The loop
    [for rel in relations: if rel.start_node.has_label("IncidentProbability"):
     xs.append(rel.start_node["probability"])]. *)
Definition probabilities_of (rels : list Relationship) : list Q :=
  flat_map (fun rel => match start_node rel with
                       | IncidentProbability p => [p]
                       | _ => []
                       end) rels.

Definition means_of (rels : list Relationship) : list Q :=
  flat_map (fun rel => match start_node rel with
                       | IncidentCostAverages m _ => [m]
                       | _ => []
                       end) rels.

Definition medians_of (rels : list Relationship) : list Q :=
  flat_map (fun rel => match start_node rel with
                       | IncidentCostAverages _ m => [m]
                       | _ => []
                       end) rels.

(** The block repeated for every list of raw values:
    [if len(xs) > 1: x = sum(xs) / len(xs)  elif len(xs) == 1: x = xs[0]]
    and otherwise [x] keeps its initial [None]. *)
Definition one_value (xs : list Q) : option Q :=
  match xs with
  | [] => None
  | [x] => Some x
  | _ :: _ :: _ => Some (sum xs / len xs)
  end.

(** ** get_probability_of_breach *)

(** The value of [size_probability] when the final [if] is reached. *)
Definition size_probability (g : Graph) (size : string) : option Q :=
  match _get_node g SizeLabel size with
  | Some size_node => one_value (probabilities_of (match_ g size_node FOR_SIZE))
  | None => None
  end.

Definition industry_probability (g : Graph) (industry : string) : option Q :=
  match _get_node g IndustryLabel industry with
  | Some industry_node =>
      one_value (probabilities_of (match_ g industry_node FOR_INDUSTRY))
  | None => None
  end.

(** The closing [if a and b: (a + b) / 2  else: a or b]. *)
Definition both_or_either (x y : option Q) : option Q :=
  match x, y with
  | Some a, Some b =>
      if truthy x && truthy y then Some ((a + b) / 2) else or_ x y
  | _, _ => or_ x y
  end.

Definition get_probability_of_breach (g : Graph) (size industry : string)
  : option Q :=
  match _get_node g SizeLabel size, _get_node g IndustryLabel industry with
  | None, None => None
  | _, _ =>
      both_or_either (size_probability g size) (industry_probability g industry)
  end.


(** ** get_incident_cost_averages *)

Definition size_mean (g : Graph) (size : string) : option Q :=
match _get_node g SizeLabel size with
| Some size_node => one_value (means_of (match_ g size_node FOR_SIZE))
| None => None
end.

Definition size_median (g : Graph) (size : string) : option Q :=
match _get_node g SizeLabel size with
| Some size_node => one_value (medians_of (match_ g size_node FOR_SIZE))
| None => None
end.

Definition industry_mean (g : Graph) (industry : string) : option Q :=
match _get_node g IndustryLabel industry with
| Some industry_node =>
    one_value (means_of (match_ g industry_node FOR_INDUSTRY))
| None => None
end.

Definition industry_median (g : Graph) (industry : string) : option Q :=
match _get_node g IndustryLabel industry with
| Some industry_node =>
    one_value (medians_of (match_ g industry_node FOR_INDUSTRY))
| None => None
end.

(** Returns [None] when neither node exists and the tuple [(mean, median)]
    otherwise. *)
Definition get_incident_cost_averages (g : Graph) (pairing : string * string)
  : option (option Q * option Q) :=
let size := fst pairing in
let industry := snd pairing in
match _get_node g SizeLabel size, _get_node g IndustryLabel industry with
| None, None => None
| _, _ =>
    let mean := both_or_either (size_mean g size) (industry_mean g industry) in
    let median :=
      both_or_either (size_median g size) (industry_median g industry) in
    Some (mean, median)
end.

(** ** get_incident_frequency_probabilities *)

(** [base_frequency_probabilities] holds a list of vectors after the
    filter, and a list of numbers once it has been replaced by the
    element-wise means. *)
Inductive BaseFrequencyProbabilities : Type :=
| Vectors (rows : list (list Q))
| Means (means : list Q).

(** [array[:, i]] on the two-dimensional array built from [rows]: index [i]
    must exist in every row. *)
Definition column (rows : list (list Q)) (i : nat) : result (list Q) :=
mapM (fun row => match nth_error row i with
                 | Some x => Return x
                 | None => Raise IndexError
                 end) rows.

(** [np.mean] of a non-empty one-dimensional array. *)
Definition np_mean (xs : list Q) : Q := sum xs / len xs.

(** [for x in base_frequency_probabilities[0]]: the first element must
    exist and must be iterable. *)
Definition first_vector (base : BaseFrequencyProbabilities)
  : result (list Q) :=
match base with
| Vectors (row :: _) => Return row
| Vectors [] => Raise IndexError
| Means (_ :: _) => Raise TypeError
| Means [] => Raise IndexError
end.

(** The comprehension that keeps the vectors of the pool whose length is
    [len(boundaries) - 1]. *)
Definition qualifying (g : Graph) (boundaries : list Z) : list (list Q) :=
filter (fun probabilities =>
          (Z.of_nat (List.length probabilities)
           =? Z.of_nat (List.length boundaries) - 1)%Z)
       (IncidentBaseFrequencyProbabilities g).

Definition get_incident_frequency_probabilities
  (g : Graph) (boundaries : list Z) (pairing : string * string)
  : result (option (list Q)) :=
let size := fst pairing in
let industry := snd pairing in
let base_frequency_probabilities := qualifying g boundaries in
base <- (if (1 <? List.length base_frequency_probabilities)%nat
         then
           means <- mapM (fun i => col <- column base_frequency_probabilities i ;;
                                   Return (np_mean col))
                         (seq 0 (List.length boundaries)) ;;
           Return (Means means)
         else Return (Vectors base_frequency_probabilities)) ;;
let probability_of_breach := get_probability_of_breach g size industry in
match probability_of_breach with
| Some p =>
    if truthy probability_of_breach then
      row <- first_vector base ;;
      let breach_frequency_probabilities :=
        (100 - p) / 100 :: map (fun q => (p * q) / 100) row in
      if negb (List.length breach_frequency_probabilities
               =? List.length boundaries)%nat
      then Raise (Exception "Mismatched boundaries!")
      else Return (Some breach_frequency_probabilities)
    else Return None
| None => Return None
end.

(** ** Stored distributions *)

(** The dict [{"a": a, "b": b}]. *)
Record FrequencyDict : Type := { dist_a : Q; dist_b : Q }.

(** The dict [{"mean": mean, "stddev": stddev}]. *)
Record CostsDict : Type := { dist_mean : Q; dist_stddev : Q }.

(** What the distribution getters hand around: [None], the tuple
    [(None, None)] or a dict. *)
Inductive Dist (D : Type) : Type :=
| DNone
| DNonePair
| DDict (d : D).

Arguments DNone {D}.
Arguments DNonePair {D}.
Arguments DDict {D} d.

Definition All : string := "All".

(** The Cypher query of [_get_frequency_distribution]. *)
Definition frequency_nodes (g : Graph) (size industry : string)
  : list FrequencyNode :=
filter (fun node => String.eqb (fn_size node) size
                    && String.eqb (fn_industry node) industry)
       (IncidentFrequencyDistribution g).

Definition _get_frequency_distribution (g : Graph) (size industry : string)
  : result (Dist FrequencyDict) :=
let nodes := frequency_nodes g size industry in
if (List.length nodes =? 0)%nat then
  if String.eqb size All && String.eqb industry All
  then Raise (Exception "No fallback node found!")
  else Return DNonePair
else
  let a := map fn_a nodes in
  let b := map fn_b nodes in
  if (0 <? List.length nodes)%nat
  then Return (DDict {| dist_a := sum a / len a; dist_b := sum b / len b |})
  else Return (DDict {| dist_a := hd 0 a; dist_b := hd 0 b |}).

(** The Cypher query of [_get_costs_distribution]. *)
Definition costs_nodes (g : Graph) (size industry : string)
  : list CostsNode :=
filter (fun node => String.eqb (cn_size node) size
                    && String.eqb (cn_industry node) industry)
       (IncidentCostsDistribution g).

Definition _get_costs_distribution (g : Graph) (size industry : string)
  : result (Dist CostsDict) :=
let nodes := costs_nodes g size industry in
if (List.length nodes =? 0)%nat then
  if String.eqb size All && String.eqb industry All
  then Raise (Exception "No fallback node found!")
  else Return DNonePair
else
  let mean := map cn_mean nodes in
  let stddev := map cn_stddev nodes in
  if (1 <? List.length nodes)%nat
  then Return (DDict {| dist_mean := sum mean / len mean;
                        dist_stddev := sum stddev / len stddev |})
  else Return (DDict {| dist_mean := hd 0 mean; dist_stddev := hd 0 stddev |}).

(** [dist["a"]], evaluated for the debug message when [dist is not None]:
    subscripting a tuple with a string is a [TypeError]. *)
Definition subscript {D : Type} (dist : Dist D) : result D :=
match dist with
| DDict d => Return d
| DNonePair => Raise TypeError
| DNone => Raise TypeError
end.

Definition get_incident_frequency_distribution
  (g : Graph) (pairing : string * string) : result (Dist FrequencyDict) :=
let size := fst pairing in
let industry := snd pairing in
match _get_node g SizeLabel size, _get_node g IndustryLabel industry with
| None, None => _get_frequency_distribution g All All
| _, _ =>
    dist <- _get_frequency_distribution g size industry ;;
    match dist with
    | DNone => Return dist
    | _ => _ <- subscript dist ;; Return dist
    end
end.

Definition get_incident_costs_distribution
  (g : Graph) (pairing : string * string) : result (Dist CostsDict) :=
let size := fst pairing in
let industry := snd pairing in
match _get_node g SizeLabel size, _get_node g IndustryLabel industry with
| None, None => _get_costs_distribution g All All
| _, _ =>
    dist <- _get_costs_distribution g size industry ;;
    match dist with
    | DNone => Return dist
    | _ => _ <- subscript dist ;; Return dist
    end
end.

(** [get_sizes] and [get_industries]. *)
Definition get_sizes (g : Graph) : list string := Size g.
Definition get_industries (g : Graph) : list string := Industry g.

End GraphInterface.

Import GraphInterface.

(* ================================================================== *)
(** * numpy on real numbers *)
(* ================================================================== *)

Module Np.

Local Open Scope R_scope.

(** [np.cumsum]. *)
Fixpoint cumsum_from {A : Type} (plus : A -> A -> A) (acc : A) (l : list A)
  : list A :=
match l with
| [] => []
| x :: l' => plus acc x :: cumsum_from plus (plus acc x) l'
end.

Definition cumsum_Z (l : list Z) : list Z := cumsum_from Z.add 0%Z l.
Definition cumsum_Q (l : list Q) : list Q := cumsum_from Qplus 0%Q l.

(** [sum] and [np.mean] over reals. *)
Definition sum (xs : list R) : R := fold_left Rplus xs 0.
Definition mean (xs : list R) : R := sum xs / INR (List.length xs).

(** [int(x)] on a real: truncation towards zero. *)
Definition int (x : R) : Z :=
if Rle_dec 0 x then Int_part x else (- Int_part (- x))%Z.

(** [min] and [max] of a non-empty array. *)
Definition amin (x : R) (xs : list R) : R := fold_left Rmin xs x.
Definition amax (x : R) (xs : list R) : R := fold_left Rmax xs x.

(** The range [np.histogram] uses when none is given: [(0, 1)] for an empty
    array, the data's extent otherwise, widened by one half on each side
    when the extent is a single point. *)
Definition outer_edges (a : list R) : R * R :=
match a with
| [] => (0, 1)
| x :: xs =>
    let first_edge := amin x xs in
    let last_edge := amax x xs in
    if Req_dec_T first_edge last_edge
    then (first_edge - / 2, last_edge + / 2)
    else (first_edge, last_edge)
end.

(** The bin of a sample: bins are of equal width, closed on the left, and
    the last one is closed on the right as well. *)
Definition bin_index (bins : nat) (first_edge last_edge x : R) : nat :=
let norm := INR bins / (last_edge - first_edge) in
let index := Z.to_nat (Int_part ((x - first_edge) * norm)) in
if (index =? bins)%nat then (index - 1)%nat else index.

(** [np.histogram(a, bins=bins)]: the counts and the [bins + 1] edges. *)
Definition histogram (a : list R) (bins : nat) : list Z * list R :=
let (first_edge, last_edge) := outer_edges a in
let hist :=
  map (fun i =>
         Z.of_nat (List.length
                     (filter (fun x => (bin_index bins first_edge last_edge x =? i)%nat)
                             a)))
      (seq 0 bins) in
let edges :=
  map (fun i => first_edge + INR i * ((last_edge - first_edge) / INR bins))
      (seq 0 bins) ++ [last_edge] in
(hist, edges).

End Np.

(* ================================================================== *)
(** * regenerate_distributions.py *)
(* ================================================================== *)

Module RegenerateDistributions.

Local Open Scope R_scope.
Local Open Scope string_scope.
Local Open Scope py_scope.

Definition MAX_ANNUAL_INCIDENTS : Z := 8000.

Definition BOUNDARIES : list (string * Z) :=
[ ("None", 0%Z);
  ("Once per year", 1%Z);
  ("Less than once a month", 2%Z);
  ("Once a month", 8%Z);
  ("Once a week", 18%Z);
  ("Once a day", 80%Z);
  ("Several times a day", 400%Z);
  ("MAX", MAX_ANNUAL_INCIDENTS) ].

(** [list(BOUNDARIES.values())]. *)
Definition BOUNDARIES_values : list Z := map snd BOUNDARIES.

(** A node written to the database, for the pairing it is linked to. *)
Inductive Created : Type :=
| NewFrequencyDistribution (pairing : string * string) (a b : R)
| NewCostsDistribution (pairing : string * string) (mean stddev : R).

(** Ordinary least squares of [ys ~ xs]: [(intercept, slope)]. *)
Definition ols (xs ys : list R) : R * R :=
let xbar := Np.mean xs in
let ybar := Np.mean ys in
let sxy := Np.sum (map (fun xy => (fst xy - xbar) * (snd xy - ybar)) (combine xs ys)) in
let sxx := Np.sum (map (fun x => (x - xbar) * (x - xbar)) xs) in
let slope := sxy / sxx in
(ybar - slope * xbar, slope).

(** [gi.create_incident_frequency_distribution_node]: the node is linked
    to the pairing's [Size] and [Industry] nodes; linking to a node that
    does not exist raises [AttributeError]. (The unlinked node written
    before the exception is not kept in the result.) *)
Definition create_incident_frequency_distribution_node
  (g : Graph) (pairing : string * string) (a b : R) : result Created :=
match _get_node g SizeLabel (fst pairing),
      _get_node g IndustryLabel (snd pairing) with
| Some _, Some _ => Return (NewFrequencyDistribution pairing a b)
| _, _ => Raise AttributeError
end.

(** [gi.create_incident_costs_distribution_node], likewise. *)
Definition create_incident_costs_distribution_node
  (g : Graph) (pairing : string * string) (mean stddev : R) : result Created :=
match _get_node g SizeLabel (fst pairing),
      _get_node g IndustryLabel (snd pairing) with
| Some _, Some _ => Return (NewCostsDistribution pairing mean stddev)
| _, _ => Raise AttributeError
end.

(** Returns the number of distributions generated and the nodes created. *)
Definition _generate_new_incident_frequency_distribution
  (g : Graph) (pairing : string * string) : result (nat * list Created) :=
incident_frequency_probabilities <-
  get_incident_frequency_probabilities g (removelast BOUNDARIES_values) pairing ;;
match incident_frequency_probabilities with
| None => Return (0%nat, [])
| Some probabilities =>
    let Fs := Np.cumsum_Q probabilities in
    let xs := map (fun v => ln (IZR v)) (tl BOUNDARIES_values) in
    let ys := map (fun F => ln (1 - Q2R F)) Fs in
    let fit := ols xs ys in
    let alogb := fst fit in
    let a := - snd fit in
    let b := exp (alogb / a) in
    node <- create_incident_frequency_distribution_node g pairing a b ;;
    Return (1%nat, [node])
end.

(** The argument of [np.sqrt] exactly as Python parses it: the conditional
    expression binds looser than [-], so the whole of
    [np.log(mean) - 0] is the branch taken when the median is [0]. *)
Definition log_stddev (incident_mean_cost incident_median_cost : Q) : R :=
sqrt (2 * (if Qeq_bool incident_median_cost 0
           then ln (Q2R incident_mean_cost) - 0
           else ln (Q2R incident_median_cost))).

(** Unpacking the resolver's result raises [TypeError] when it is [None]
    rather than a tuple. The density plot drawn before the node is created
    has no bearing on the result and is left out; the node handed to
    [create_incident_costs_distribution_node] is returned with the count. *)
Definition _generate_new_incident_costs_distribution
  (g : Graph) (pairing : string * string) : result (nat * list Created) :=
averages <- match get_incident_cost_averages g pairing with
            | Some tuple => Return tuple
            | None => Raise TypeError
            end ;;
match averages with
| (Some incident_mean_cost, Some incident_median_cost) =>
    let stddev :=
      Rpower (exp 1) (log_stddev incident_mean_cost incident_median_cost) in
    node <- create_incident_costs_distribution_node
              g pairing (Q2R incident_mean_cost) stddev ;;
    Return (1%nat, [node])
| (_, _) => Return (0%nat, [])
end.

(** The loop of [_generate_new_distributions] over the pairs. *)
Fixpoint generate_for_pairs (g : Graph) (pairs : list (string * string))
  (successful_incidents_dists successful_costs_dists : nat)
  (created : list Created) : result (nat * nat * list Created) :=
match pairs with
| [] => Return (successful_incidents_dists, successful_costs_dists, created)
| p :: pairs' =>
    f <- _generate_new_incident_frequency_distribution g p ;;
    c <- _generate_new_incident_costs_distribution g p ;;
    generate_for_pairs g pairs'
      (successful_incidents_dists + fst f)
      (successful_costs_dists + fst c)
      (created ++ snd f ++ snd c)%list
end.

(** [gi.delete_distributions()]. *)
Definition delete_distributions (g : Graph) : Graph :=
{| Size := Size g;
   Industry := Industry g;
   relationships := relationships g;
   IncidentBaseFrequencyProbabilities := IncidentBaseFrequencyProbabilities g;
   IncidentFrequencyDistribution := [];
   IncidentCostsDistribution := [] |}.

Definition _generate_new_distributions
  (g : Graph) (pairing : option string * option string)
  : result (nat * nat * list Created) :=
let g := delete_distributions g in
let sizes := match fst pairing with None => get_sizes g | Some s => [s] end in
let industries :=
  match snd pairing with None => get_industries g | Some i => [i] end in
generate_for_pairs g (list_prod sizes industries) 0 0 [].

End RegenerateDistributions.

(* ================================================================== *)
(** * montecarlo.py *)
(* ================================================================== *)

Module MonteCarlo.

Local Open Scope R_scope.
Local Open Scope string_scope.

Definition DEFAULT_RUNS : Z := 5000.
Definition MAX_ANNUAL_INCIDENTS : Z := 8000.
Definition COMPANY_VALUE : Z := 100000.

(** [math.floor(COMPANY_VALUE / 30)]. *)
Definition LEC_PRECISION : nat := Z.to_nat (COMPANY_VALUE / 30).

(** The module's globals, set by [main] from the command line. *)
Record Config : Type := {
  N : Z;
  OUTPUT_DIR : option string;
  IMAGES : bool;
  FORCE : bool
}.

(** What [main] prints. *)
Inductive Output : Type :=
| RunningSimulationFor (size industry : string)
| PrintInt (n : Z)
| PrintCost (cost : R)
| NoDataFound.

(** A pickled pair of distributions. *)
Definition Pickle : Type := (Dist FrequencyDict * Dist CostsDict)%type.

(** Everything the script changes: the pickle files, standard output, the
    data of the loss exceedance plot, and how many draws have been taken
    from each random generator. *)
Record World : Type := {
  files : list (string * Pickle);
  stdout : list Output;
  lec_plots : list (list R * list R);
  np_draws : nat;
  py_draws : nat
}.

(** State and exceptions: the world is kept when an exception escapes. *)
Definition M (A : Type) : Type := World -> World * result A.

Definition ret {A : Type} (a : A) : M A := fun w => (w, Return a).
Definition raise {A : Type} (e : exn) : M A := fun w => (w, Raise e).
Definition lift {A : Type} (c : result A) : M A := fun w => (w, c).

Definition bindM {A B : Type} (c : M A) (k : A -> M B) : M B :=
fun w => match c w with
         | (w', Return a) => k a w'
         | (w', Raise e) => (w', Raise e)
         end.

Declare Scope world_scope.
Delimit Scope world_scope with world.
Notation "x <- c ;; k" := (bindM c (fun x => k))
(at level 61, c at next level, right associativity) : world_scope.
Notation "c ;;; k" := (bindM c (fun _ => k))
(at level 61, right associativity) : world_scope.
Local Open Scope world_scope.

Fixpoint mapW {A B : Type} (f : A -> M B) (l : list A) : M (list B) :=
match l with
| [] => ret []
| x :: l' => y <- f x ;; ys <- mapW f l' ;; ret (y :: ys)
end.

Definition print (o : Output) : M unit :=
fun w => ({| files := files w; stdout := (stdout w ++ [o])%list;
             lec_plots := lec_plots w;
             np_draws := np_draws w; py_draws := py_draws w |}, Return tt).

Definition plot_lec (xs ys : list R) : M unit :=
fun w => ({| files := files w; stdout := stdout w;
             lec_plots := (lec_plots w ++ [(xs, ys)])%list;
             np_draws := np_draws w; py_draws := py_draws w |}, Return tt).

(** [pickle.load(open(path, "rb"))]: [None] stands for the [OSError]. *)
Definition pickle_load (path : string) : M (option Pickle) :=
fun w => (w, Return (option_map snd
                       (find (fun f => String.eqb (fst f) path) (files w)))).

Definition pickle_dump (dists : Pickle) (path : string) : M unit :=
fun w => ({| files := (path, dists) :: files w; stdout := stdout w;
             lec_plots := lec_plots w;
             np_draws := np_draws w; py_draws := py_draws w |}, Return tt).

(** [range(n)]. *)
Definition range (n : Z) : list nat := seq 0 (Z.to_nat n).

(** ** Sampling *)

(** The body of [_calculate_num_of_incidents], with the value [U] of
    [np.random.uniform()] made explicit. *)
Definition _calculate_num_of_incidents (incidents_dist : FrequencyDict) (U : R)
  : Z :=
let num_of_incidents :=
  Q2R (dist_b incidents_dist) / Rpower (1 - U) (1 / Q2R (dist_a incidents_dist)) in
if Rle_dec num_of_incidents (IZR MAX_ANNUAL_INCIDENTS)
then Np.int num_of_incidents
else MAX_ANNUAL_INCIDENTS.

Section RandomSources.

(** The successive values of [np.random.uniform()] and of
    [random.lognormvariate(mu, sigma)]. *)
Variable uniform : nat -> R.
Variable lognormvariate : nat -> R -> R -> R.

Definition np_random_uniform : M R :=
fun w => ({| files := files w; stdout := stdout w; lec_plots := lec_plots w;
             np_draws := S (np_draws w); py_draws := py_draws w |},
          Return (uniform (np_draws w))).

Definition random_lognormvariate (mu sigma : R) : M R :=
fun w => ({| files := files w; stdout := stdout w; lec_plots := lec_plots w;
             np_draws := np_draws w; py_draws := S (py_draws w) |},
          Return (lognormvariate (py_draws w) mu sigma)).

(** [stddev ** 2 / mean ** 2] divides Python numbers: a mean of zero
    raises [ZeroDivisionError] before any cost is drawn. *)
Definition _calculate_sum_cost_of_incidents
  (num_of_incidents : Z) (costs_dist : Dist CostsDict) : M R :=
if (num_of_incidents =? 0)%Z then ret 0
else
  d <- lift (subscript costs_dist) ;;
  if Qeq_bool (dist_mean d) 0 then raise ZeroDivisionError else
  let mean := Q2R (dist_mean d) in
  let stddev := Q2R (dist_stddev d) in
  let loc := ln (mean ^ 2 / sqrt (stddev ^ 2 + mean ^ 2)) in
  let shape := sqrt (ln (1 + stddev ^ 2 / mean ^ 2)) in
  costs <- mapW (fun _ => random_lognormvariate loc shape) (range num_of_incidents) ;;
  ret (Np.sum costs).

(** ** Distribution retrieval *)

Definition pickle_path (dir : string) (pairing : string * string) : string :=
dir ++ fst pairing ++ "-" ++ snd pairing ++ ".pickle".

Definition fresh_distributions (cfg : Config) (g : Graph)
  (pairing : string * string) : M Pickle :=
incidents_dist <- lift (get_incident_frequency_distribution g pairing) ;;
costs_dist <- lift (get_incident_costs_distribution g pairing) ;;
match OUTPUT_DIR cfg, incidents_dist, costs_dist with
| _, DNone, _ | _, _, DNone | None, _, _ => ret tt
| Some dir, _, _ =>
    pickle_dump (incidents_dist, costs_dist) (pickle_path dir pairing)
end ;;;
ret (incidents_dist, costs_dist).

Definition _get_most_relevant_distributions (cfg : Config) (g : Graph)
  (pairing : string * string) : M Pickle :=
match FORCE cfg, OUTPUT_DIR cfg with
| false, Some dir =>
    cached <- pickle_load (pickle_path dir pairing) ;;
    match cached with
    | Some dists => ret dists
    | None => fresh_distributions cfg g pairing
    end
| _, _ => fresh_distributions cfg g pairing
end.

(** ** The loss exceedance curve *)

(** [np.cumsum(hist[::-1])[::-1] * 100 / n]. *)
Definition cumrev (hist : list Z) (n : nat) : list R :=
map (fun c => IZR (c * 100) / INR n) (rev (Np.cumsum_Z (rev hist))).

(** The points handed to [plt.plot(edges[:-1], cumrev)]. *)
Definition loss_exceedance_curve (sum_costs : list R) : list R * list R :=
let (hist, edges) := Np.histogram sum_costs LEC_PRECISION in
(removelast edges, cumrev hist (List.length sum_costs)).

(** ** The simulation *)

(** [_save_plot]: with [IMAGES] set the file name is built from
    [OUTPUT_DIR], and [None + str] is a [TypeError]; the directory itself
    is taken to exist, as [main] creates it. *)
Definition _save_plot (cfg : Config) : M unit :=
if IMAGES cfg
then match OUTPUT_DIR cfg with
     | Some _ => ret tt
     | None => raise TypeError
     end
else ret tt.

(** Whether every element of [xs] equals [x]. *)
Definition identical (x : R) (xs : list R) : bool :=
forallb (fun y => if Req_dec_T x y then true else false) xs.

(** [pd.Series(sum_costs).plot(kind="density")]: the kernel density
    estimate needs at least two samples ([ValueError] otherwise) that are
    not all the same ([LinAlgError] otherwise). *)
Definition density_plot (sum_costs : list R) : result unit :=
match sum_costs with
| [] | [_] => Raise ValueError
| x :: xs => if identical x xs then Raise LinAlgError else Return tt
end.

Definition _run_monte_carlo_simulation (cfg : Config) (g : Graph)
  (pairing : string * string) : M (option (list Z) * option (list R)) :=
dists <- _get_most_relevant_distributions cfg g pairing ;;
let (incidents_dist, costs_dist) := dists : Pickle in
match incidents_dist, costs_dist with
| DNone, DNone => ret (None, None)
| _, _ =>
    nums_of_incidents <-
      mapW (fun _ => d <- lift (subscript incidents_dist) ;;
                     U <- np_random_uniform ;;
                     ret (_calculate_num_of_incidents d U))
           (range (N cfg)) ;;
    _save_plot cfg ;;;
    sum_costs <-
      mapW (fun num_of_incidents =>
              _calculate_sum_cost_of_incidents num_of_incidents costs_dist)
           nums_of_incidents ;;
    _save_plot cfg ;;;
    lift (density_plot sum_costs) ;;;
    _save_plot cfg ;;;
    let (xs, ys) := loss_exceedance_curve sum_costs in
    plot_lec xs ys ;;;
    _save_plot cfg ;;;
    ret (Some nums_of_incidents, Some sum_costs)
end.

(** [sum(xs) / len(xs)] on Python numbers. *)
Definition average (total : R) (n : nat) : M R :=
if (n =? 0)%nat then raise ZeroDivisionError else ret (total / INR n).

Definition sum_Z (xs : list Z) : Z := fold_left Z.add xs 0%Z.

(** The report printed for one simulation. *)
Definition report (nums_of_incidents : list Z) (sum_costs : list R) : M unit :=
avg <- average (IZR (sum_Z nums_of_incidents)) (List.length nums_of_incidents) ;;
let avg_num_of_incidents := Np.int avg in
avg_sum_costs <- average (Np.sum sum_costs) (List.length sum_costs) ;;
print (PrintInt (Np.int (IZR avg_num_of_incidents / 100))) ;;;
print (PrintCost (avg_sum_costs / 100)).

Definition nonempty (s : string) : bool :=
match s with EmptyString => false | _ => true end.

Definition main (cfg : Config) (g : Graph) (size industry : string) : M unit :=
(if nonempty size || nonempty industry then
   print (RunningSimulationFor size industry) ;;;
   r <- _run_monte_carlo_simulation cfg g (size, industry) ;;
   match r with
   | (Some nums_of_incidents, Some sum_costs) =>
       report nums_of_incidents sum_costs
   | (_, _) => print NoDataFound
   end
 else ret tt) ;;;
print (RunningSimulationFor All All) ;;;
r <- _run_monte_carlo_simulation cfg g (All, All) ;;
match r with
| (Some gen_nums_of_incidents, Some gen_sum_costs) =>
    report gen_nums_of_incidents gen_sum_costs
| (_, _) => raise TypeError
end.

End RandomSources.

Definition empty_world : World :=
{| files := []; stdout := []; lec_plots := []; np_draws := 0; py_draws := 0 |}.

End MonteCarlo.

(* ================================================================== *)
(** * The specification's wording *)
(* ================================================================== *)

Module Spec.

Local Open Scope Q_scope.

(** Equality of two results that are [None] or a number. *)
Definition same (x y : option Q) : Prop :=
match x, y with
| Some a, Some b => a == b
| None, None => True
| _, _ => False
end.

(** Section 4.1, steps 3 to 5: [None] when both sides are absent, the
    present side when there is exactly one, the average of the two
    otherwise. *)
Definition resolve (size_side industry_side : option Q) : option Q :=
match size_side, industry_side with
| Some s, Some i => Some ((s + i) / 2)
| Some s, None => Some s
| None, Some i => Some i
| None, None => None
end.

(** The same policy restricted to sides that are not zero: [r] is the
    result for the sides [s] (size) and [i] (industry). *)
Definition resolves_nonzero (s i r : option Q) : Prop :=
(forall a b, s = Some a -> i = Some b -> ~ a == 0 -> ~ b == 0 ->
             r = Some ((a + b) / 2))
/\ (forall a, s = Some a -> i = None -> ~ a == 0 -> r = Some a)
/\ (forall b, s = None -> i = Some b -> r = Some b)
/\ (s = None -> i = None -> r = None).

(** How a side that is zero is treated: [r] is the result for the sides
    [s] (size) and [i] (industry). *)
Definition zero_side_ignored (s i r : option Q) : Prop :=
(forall a V, s = Some a -> a == 0 -> i = Some V -> ~ V == 0 -> r = Some V)
/\ (forall V b, s = Some V -> ~ V == 0 -> i = Some b -> b == 0 -> r = Some V)
/\ (forall a, s = Some a -> a == 0 -> i = None -> r = None)
/\ (forall b, s = None -> i = Some b -> b == 0 -> r = Some b)
/\ (forall a b, s = Some a -> a == 0 -> i = Some b -> b == 0 -> r = Some b).

(** Section 4.2, cost fitting:
    [sqrt(2 * (log(mean) - log(median)))] when the median is positive and
    [sqrt(2 * log(mean))] otherwise. *)
Definition log_stddev (mean median : Q) : R :=
if Qeq_bool median 0
then sqrt (2 * ln (Q2R mean))
else sqrt (2 * (ln (Q2R mean) - ln (Q2R median))).

(** The sums of the suffixes of a list: what reversing, accumulating and
    reversing again computes. *)
Fixpoint suffix_sums (l : list Z) : list Z :=
match l with
| [] => []
| x :: l' => (x + fold_right Z.add 0 l')%Z :: suffix_sums l'
end.

(** Section 4.3: a curve is non-increasing when no later value exceeds an
    earlier one; a cost axis increases when every later point is larger. *)
Definition non_increasing : list R -> Prop := StronglySorted Rge.
Definition increasing : list R -> Prop := StronglySorted Rlt.

End Spec.

(* ================================================================== *)
(** * Concrete stores *)
(* ================================================================== *)

Module Examples.

Local Open Scope Q_scope.
Local Open Scope string_scope.

Definition evidence (t : RelType) (n : Node) (name : string) : Relationship :=
{| r_type := t; start_node := n; end_node := name |}.

Definition store (sizes industries : list string) (rels : list Relationship)
  (base : list (list Q)) : Graph :=
{| Size := sizes; Industry := industries; relationships := rels;
   IncidentBaseFrequencyProbabilities := base;
   IncidentFrequencyDistribution := [];
   IncidentCostsDistribution := [] |}.

(** A size with breach probability [p] and an industry with [q]. *)
Definition two_sided (p q : Q) : Graph :=
store ["micro"] ["C"]
      [ evidence FOR_SIZE (IncidentProbability p) "micro";
        evidence FOR_INDUSTRY (IncidentProbability q) "C" ]
      [].

(** Evidence on the industry side only. *)
Definition industry_only (q : Q) : Graph :=
store [] ["C"] [ evidence FOR_INDUSTRY (IncidentProbability q) "C" ] [].

(** Cost averages on both sides. *)
Definition two_sided_costs (m1 d1 m2 d2 : Q) : Graph :=
store ["micro"] ["C"]
      [ evidence FOR_SIZE (IncidentCostAverages m1 d1) "micro";
        evidence FOR_INDUSTRY (IncidentCostAverages m2 d2) "C" ]
      [].

(** Cost averages on the industry side only. *)
Definition industry_only_costs (m d : Q) : Graph :=
store [] ["C"] [ evidence FOR_INDUSTRY (IncidentCostAverages m d) "C" ] [].

(** Both nodes exist; cost averages on the size side only. *)
Definition size_only_costs (m d : Q) : Graph :=
store ["micro"] ["C"] [ evidence FOR_SIZE (IncidentCostAverages m d) "micro" ] [].

(** The boundaries [{None: 0, Once a year: 1, MAX: 8000}]. *)
Definition three_boundaries : list Z := [0; 1; 8000]%Z.

(** An industry with breach probability [p] and the given pool of base
    frequency vectors. *)
Definition with_base (p : Q) (base : list (list Q)) : Graph :=
store ["micro"] ["C"] [ evidence FOR_INDUSTRY (IncidentProbability p) "C" ] base.

(** Known sizes and industries, distributions for the universal segment
    only. *)
Definition universal_only : Graph :=
{| Size := ["All"; "micro"]; Industry := ["All"; "C"]; relationships := [];
   IncidentBaseFrequencyProbabilities := [];
   IncidentFrequencyDistribution :=
     [ {| fn_size := "All"; fn_industry := "All"; fn_a := 1 # 2; fn_b := 1 |} ];
   IncidentCostsDistribution :=
     [ {| cn_size := "All"; cn_industry := "All";
          cn_mean := 1000; cn_stddev := 2 |} ] |}.

(** Known sizes and industries and no distribution at all. *)
Definition no_distributions : Graph :=
store ["All"; "micro"] ["All"; "C"] [] [].

Definition config : MonteCarlo.Config :=
{| MonteCarlo.N := 3; MonteCarlo.OUTPUT_DIR := Some "output/";
   MonteCarlo.IMAGES := false; MonteCarlo.FORCE := false |}.

End Examples.

(* ================================================================== *)
(** * Vocabulary for further properties *)
(* ================================================================== *)

Module Vocabulary.

Local Open Scope Q_scope.

(** A number between two bounds. *)
Definition within (lo hi : Q) (x : Q) : Prop := lo <= x <= hi.

(** The kind, and the pairing, of a node written by the regeneration
    script. *)
Definition is_frequency (c : RegenerateDistributions.Created) : bool :=
match c with
| RegenerateDistributions.NewFrequencyDistribution _ _ _ => true
| RegenerateDistributions.NewCostsDistribution _ _ _ => false
end.

Definition pairing_of (c : RegenerateDistributions.Created) : string * string :=
match c with
| RegenerateDistributions.NewFrequencyDistribution pairing _ _ => pairing
| RegenerateDistributions.NewCostsDistribution pairing _ _ => pairing
end.

Definition frequency_count (created : list RegenerateDistributions.Created)
  : nat :=
List.length (filter is_frequency created).

Definition costs_count (created : list RegenerateDistributions.Created)
  : nat :=
List.length (filter (fun c => negb (is_frequency c)) created).

(** The sizes and industries a regeneration run enumerates. *)
Definition enumerated_sizes (g : Graph) (pairing : option string * option string)
  : list string :=
match fst pairing with None => get_sizes g | Some s => [s] end.

Definition enumerated_industries
  (g : Graph) (pairing : option string * option string) : list string :=
match snd pairing with None => get_industries g | Some i => [i] end.

(** A computation that writes nothing to standard output, whether it
    returns or raises. *)
Definition silent {A : Type} (c : MonteCarlo.M A) : Prop :=
forall w, MonteCarlo.stdout (fst (c w)) = MonteCarlo.stdout w.

(** A computation that may print, but never "No data found.". *)
Definition never_complains {A : Type} (c : MonteCarlo.M A) : Prop :=
forall w, exists out,
  MonteCarlo.stdout (fst (c w)) = (MonteCarlo.stdout w ++ out)%list
  /\ ~ In MonteCarlo.NoDataFound out.

(** A forced run of one trial, and a store whose universal distributions
    have [a = 1], [b = 2.7], mean 1000 and standard deviation 2. *)
Definition forced_config : MonteCarlo.Config :=
{| MonteCarlo.N := 1; MonteCarlo.OUTPUT_DIR := Some "output/"%string;
   MonteCarlo.IMAGES := false; MonteCarlo.FORCE := true |}.

(** A forced run of two trials. *)
Definition two_trials_config : MonteCarlo.Config :=
{| MonteCarlo.N := 2; MonteCarlo.OUTPUT_DIR := Some "output/"%string;
   MonteCarlo.IMAGES := false; MonteCarlo.FORCE := true |}.

Definition sampling_store : Graph :=
{| Size := ["All"%string]; Industry := ["All"%string]; relationships := [];
   IncidentBaseFrequencyProbabilities := [];
   IncidentFrequencyDistribution :=
     [ {| fn_size := "All"; fn_industry := "All"; fn_a := 1; fn_b := 27 # 10 |} ];
   IncidentCostsDistribution :=
     [ {| cn_size := "All"; cn_industry := "All";
          cn_mean := 1000; cn_stddev := 2 |} ] |}.

(** The store with one more relationship. *)
Definition add_relationship (rel : Relationship) (g : Graph) : Graph :=
{| Size := Size g;
   Industry := Industry g;
   relationships := rel :: relationships g;
   IncidentBaseFrequencyProbabilities := IncidentBaseFrequencyProbabilities g;
   IncidentFrequencyDistribution := IncidentFrequencyDistribution g;
   IncidentCostsDistribution := IncidentCostsDistribution g |}.

(** A relationship that attaches evidence to the size of a pairing through
    [FOR_SIZE] or to its industry through [FOR_INDUSTRY]. *)
Definition attached_to (rel : Relationship) (size industry : string) : Prop :=
(r_type rel = FOR_SIZE /\ end_node rel = size)
\/ (r_type rel = FOR_INDUSTRY /\ end_node rel = industry).

Definition is_probability (n : Node) : Prop :=
match n with IncidentProbability _ => True | _ => False end.

Definition is_cost_averages (n : Node) : Prop :=
match n with IncidentCostAverages _ _ => True | _ => False end.

End Vocabulary.

(* ================================================================== *)
(** * Evidence resolution *)
(* ================================================================== *)

Module ResolverFacts.

Import Spec Examples.
Local Open Scope Q_scope.
Local Open Scope string_scope.

Lemma truthy_Some (q : Q) : truthy (Some q) = true <-> ~ q == 0.
Proof.
  unfold truthy. rewrite negb_true_iff. split.
  - intros H E. apply Qeq_bool_iff in E. congruence.
  - intros H. destruct (Qeq_bool q 0) eqn:E; [|reflexivity].
    apply Qeq_bool_iff in E. contradiction.
Qed.

Lemma falsy_Some (q : Q) : truthy (Some q) = false <-> q == 0.
Proof.
  unfold truthy. rewrite negb_false_iff. apply Qeq_bool_iff.
Qed.

Ltac settle_truthy :=
  repeat match goal with
         | H : ~ _ == 0 |- _ => apply truthy_Some in H
         | H : _ == 0 |- _ => apply falsy_Some in H
         end.

(** The closing [if]/[else] of the three resolutions on non-zero sides. *)
Lemma both_or_either_nonzero (s i : option Q) :
  resolves_nonzero s i (both_or_either s i).
Proof.
  repeat split; intros; subst; settle_truthy; unfold both_or_either, or_;
    repeat match goal with H : truthy _ = _ |- _ => rewrite H end;
    reflexivity.
Qed.

(** The same on sides that are zero. *)
Lemma both_or_either_zero (s i : option Q) :
  zero_side_ignored s i (both_or_either s i).
Proof.
  repeat split; intros; subst; settle_truthy; unfold both_or_either, or_;
    repeat match goal with H : truthy _ = _ |- _ => rewrite H end;
    rewrite ?andb_false_r; reflexivity.
Qed.

(** A side is absent when its node is. *)
Lemma no_node_no_side (g : Graph) (size industry : string) :
  _get_node g SizeLabel size = None ->
  _get_node g IndustryLabel industry = None ->
  size_probability g size = None /\ industry_probability g industry = None
  /\ size_mean g size = None /\ industry_mean g industry = None
  /\ size_median g size = None /\ industry_median g industry = None.
Proof.
  intros Hs Hi.
  unfold size_probability, industry_probability, size_mean, industry_mean,
    size_median, industry_median.
  rewrite Hs, Hi. repeat split.
Qed.

(** [get_probability_of_breach] is the closing [if]/[else] applied to the
    two sides, whether the nodes exist or not. *)
Lemma get_probability_of_breach_sides (g : Graph) (size industry : string) :
  get_probability_of_breach g size industry
  = both_or_either (size_probability g size) (industry_probability g industry).
Proof.
  unfold get_probability_of_breach.
  destruct (_get_node g SizeLabel size) eqn:Hs;
    destruct (_get_node g IndustryLabel industry) eqn:Hi; try reflexivity.
  destruct (no_node_no_side g size industry Hs Hi) as (-> & -> & _).
  reflexivity.
Qed.

(** [get_incident_cost_averages] returns [None] exactly when neither node
    exists, and the two resolved components otherwise. *)
Lemma get_incident_cost_averages_sides (g : Graph) (size industry : string) :
  get_incident_cost_averages g (size, industry)
  = match _get_node g SizeLabel size, _get_node g IndustryLabel industry with
    | None, None => None
    | _, _ =>
        Some (both_or_either (size_mean g size) (industry_mean g industry),
              both_or_either (size_median g size) (industry_median g industry))
    end.
Proof.
  unfold get_incident_cost_averages. cbn [fst snd].
  destruct (_get_node g SizeLabel size), (_get_node g IndustryLabel industry);
    reflexivity.
Qed.

(** C2, as the code has it: breach-probability resolution and each
    component of cost-averages resolution return the arithmetic mean of
    the size-side and industry-side values when both are present and not
    zero, the size side's value when only it has data and is not zero, the
    industry side's value when only it has data, and [None] when both
    sides are absent; cost-averages resolution returns no tuple at all
    only when every side is absent. *)
Theorem resolution_averages_nonzero_sides (g : Graph) (size industry : string) :
  resolves_nonzero (size_probability g size) (industry_probability g industry)
                   (get_probability_of_breach g size industry)
  /\ match get_incident_cost_averages g (size, industry) with
     | Some (mean, median) =>
         resolves_nonzero (size_mean g size) (industry_mean g industry) mean
         /\ resolves_nonzero (size_median g size) (industry_median g industry)
                             median
     | None =>
         size_mean g size = None /\ industry_mean g industry = None
         /\ size_median g size = None /\ industry_median g industry = None
     end.
Proof.
  split.
  - rewrite get_probability_of_breach_sides. apply both_or_either_nonzero.
  - rewrite get_incident_cost_averages_sides.
    destruct (_get_node g SizeLabel size) eqn:Hs;
      destruct (_get_node g IndustryLabel industry) eqn:Hi;
      try (split; apply both_or_either_nonzero).
    apply (no_node_no_side g size industry Hs Hi).
Qed.

(** An instance: probabilities 40 and 60 resolve to their mean, and cost
    averages (1000, 800) and (3000, 1200) to the component-wise means. *)
Lemma resolution_averages_nonzero_sides_witness :
  get_probability_of_breach (two_sided 40 60) "micro" "C" = Some ((40 + 60) / 2)
  /\ get_incident_cost_averages (two_sided_costs 1000 800 3000 1200) ("micro", "C")
     = Some (Some ((1000 + 3000) / 2), Some ((800 + 1200) / 2)).
Proof.
  split.
  - apply (proj1 (proj1 (resolution_averages_nonzero_sides
                           (two_sided 40 60) "micro" "C")));
      [reflexivity | reflexivity | discriminate | discriminate].
  - pose proof (proj2 (resolution_averages_nonzero_sides
                         (two_sided_costs 1000 800 3000 1200) "micro" "C")) as H.
    cbn [fst snd] in H. destruct H as [(Hm & _) (Hd & _)].
    rewrite get_incident_cost_averages_sides.
    change (_get_node (two_sided_costs 1000 800 3000 1200) SizeLabel "micro")
      with (Some "micro").
    cbv beta iota.
    rewrite (Hm 1000 3000), (Hd 800 1200); reflexivity || discriminate.
Defined.

(** C2, as stated, fails: with size-side probability 0 and industry-side
    probability 50 both sides are present, yet the resolver returns 50 and
    not their mean 25. *)
Lemma resolution_zero_side_not_averaged :
  size_probability (two_sided 0 50) "micro" = Some 0
  /\ industry_probability (two_sided 0 50) "C" = Some 50
  /\ get_probability_of_breach (two_sided 0 50) "micro" "C" = Some 50
  /\ ~ same (get_probability_of_breach (two_sided 0 50) "micro" "C")
            (resolve (size_probability (two_sided 0 50) "micro")
                     (industry_probability (two_sided 0 50) "C")).
Proof.
  repeat split; try reflexivity.
  vm_compute. discriminate.
Qed.


(** C10, as stated, fails: a 0 that is the only value present, on the
    industry side, is returned as 0 and not as [None], for the breach
    probability and for the cost mean and median alike. *)
Lemma lone_industry_zero_is_returned :
  size_probability (industry_only 0) "micro" = None
  /\ industry_probability (industry_only 0) "C" = Some 0
  /\ get_probability_of_breach (industry_only 0) "micro" "C" = Some 0
  /\ get_probability_of_breach (industry_only 0) "micro" "C" <> None
  /\ get_incident_cost_averages (industry_only_costs 0 0) ("micro", "C")
     = Some (Some 0, Some 0).
Proof.
  repeat split; try reflexivity. discriminate.
Qed.

(** C10, as the code has it: in breach-probability resolution and in each
    component of cost-averages resolution a side equal to 0 does not take
    part in the average: with a non-zero value V on the other side the
    result is V; a 0 on the size side with the industry side absent gives
    [None]; a 0 on the industry side with the size side absent or 0 as
    well is returned as it is. *)
Theorem zero_side_treated_as_absent (g : Graph) (size industry : string) :
  zero_side_ignored (size_probability g size) (industry_probability g industry)
                    (get_probability_of_breach g size industry)
  /\ forall mean median,
      get_incident_cost_averages g (size, industry) = Some (mean, median) ->
      zero_side_ignored (size_mean g size) (industry_mean g industry) mean
      /\ zero_side_ignored (size_median g size) (industry_median g industry)
                           median.
Proof.
  split.
  - rewrite get_probability_of_breach_sides. apply both_or_either_zero.
  - intros mean median. rewrite get_incident_cost_averages_sides.
    destruct (_get_node g SizeLabel size), (_get_node g IndustryLabel industry);
      intros E; inversion E; subst; try (split; apply both_or_either_zero).
Qed.

(** An instance: 0 on the size side and 50 on the industry side resolve to
    50, and cost averages (0, 0) on the size side alone resolve to
    [(None, None)]. *)
Lemma zero_side_treated_as_absent_witness :
  get_probability_of_breach (two_sided 0 50) "micro" "C" = Some 50
  /\ get_incident_cost_averages (size_only_costs 0 0) ("micro", "C")
     = Some (None, None).
Proof.
  split.
  - apply (proj1 (proj1 (zero_side_treated_as_absent
                           (two_sided 0 50) "micro" "C")) 0 50);
      reflexivity || discriminate.
  - destruct (proj2 (zero_side_treated_as_absent
                       (size_only_costs 0 0) "micro" "C")
                    _ _ eq_refl) as [(_ & _ & Hm & _) (_ & _ & Hd & _)].
    cbn [fst snd] in Hm, Hd. rewrite get_incident_cost_averages_sides.
    change (_get_node (size_only_costs 0 0) SizeLabel "micro")
      with (Some "micro").
    cbv beta iota.
    rewrite (Hm 0), (Hd 0); reflexivity.
Defined.


(** ** Base frequency probabilities *)

Lemma qualifying_length (g : Graph) (boundaries : list Z) (row : list Q) :
  In row (qualifying g boundaries) ->
  List.length boundaries = S (List.length row).
Proof.
  unfold qualifying. rewrite filter_In. intros [_ H].
  apply Z.eqb_eq in H. lia.
Qed.

(** Whatever the store holds, a vector that is returned has one entry per
    boundary: any other length raises. *)
Lemma returned_vector_matches_boundaries
  (g : Graph) (boundaries : list Z) (pairing : string * string) (v : list Q) :
  get_incident_frequency_probabilities g boundaries pairing = Return (Some v) ->
  List.length v = List.length boundaries.
Proof.
  unfold get_incident_frequency_probabilities.
  destruct (if (1 <? _)%nat then _ else _) as [base|e]; cbn [bind];
    [|discriminate].
  destruct (get_probability_of_breach _ _ _) as [p|]; [|discriminate].
  destruct (truthy (Some p)); [|discriminate].
  destruct (first_vector base) as [row|e]; cbn [bind]; [|discriminate].
  destruct (List.length _ =? List.length boundaries)%nat eqn:E;
    cbn [negb]; [|discriminate].
  intros H. inversion H; subst. apply Nat.eqb_eq in E. exact E.
Qed.

(** C5, as the code has it: with a single qualifying base vector
    [q1..qk] and a resolved breach probability [p] that is not zero, the
    resolver returns [(100 - p)/100, p*q1/100, ..., p*qk/100], and that
    vector has as many entries as there are boundaries. *)
Theorem survival_series_of_single_vector
  (g : Graph) (boundaries : list Z) (size industry : string)
  (p : Q) (qs : list Q) :
  qualifying g boundaries = [qs] ->
  get_probability_of_breach g size industry = Some p ->
  ~ p == 0 ->
  get_incident_frequency_probabilities g boundaries (size, industry)
  = Return (Some ((100 - p) / 100 :: map (fun q => (p * q) / 100) qs))
  /\ List.length ((100 - p) / 100 :: map (fun q => (p * q) / 100) qs)
     = List.length boundaries.
Proof.
  intros Hq Hp Hnz.
  assert (Hlen : List.length boundaries = S (List.length qs)).
  { apply (qualifying_length g). rewrite Hq. left. reflexivity. }
  split.
  - unfold get_incident_frequency_probabilities. cbn [fst snd].
    rewrite Hq, Hp. cbn [List.length Nat.ltb Nat.leb bind first_vector].
    apply truthy_Some in Hnz. rewrite Hnz.
    rewrite length_map, Hlen, Nat.eqb_refl. reflexivity.
  - cbn [List.length]. rewrite length_map. symmetry. exact Hlen.
Qed.

(** The scenario of the specification: [p = 50] and base probabilities
    [0.7, 0.3] over three boundaries give [0.5, 0.35, 0.15]. *)
Lemma survival_series_of_single_vector_witness :
  get_incident_frequency_probabilities
    (with_base 50 [[7 # 10; 3 # 10]]) three_boundaries ("micro", "C")
  = Return (Some [(100 - 50) / 100; (50 * (7 # 10)) / 100; (50 * (3 # 10)) / 100])
  /\ Forall2 Qeq
       [(100 - 50) / 100; (50 * (7 # 10)) / 100; (50 * (3 # 10)) / 100]
       [1 # 2; 7 # 20; 3 # 20].
Proof.
  split.
  - apply (survival_series_of_single_vector
             (with_base 50 [[7 # 10; 3 # 10]]) three_boundaries "micro" "C"
             (p := 50) (qs := [7 # 10; 3 # 10]));
      reflexivity || discriminate.
  - repeat constructor.
Defined.

(** C5, as stated, fails at [p = 0]: the resolver returns [None], not the
    vector [(100 - 0)/100, 0, 0]. *)
Lemma zero_probability_gives_no_series :
  qualifying (with_base 0 [[7 # 10; 3 # 10]]) three_boundaries
  = [[7 # 10; 3 # 10]]
  /\ get_probability_of_breach (with_base 0 [[7 # 10; 3 # 10]]) "micro" "C"
     = Some 0
  /\ get_incident_frequency_probabilities
       (with_base 0 [[7 # 10; 3 # 10]]) three_boundaries ("micro", "C")
     = Return None.
Proof.
  repeat split; reflexivity.
Qed.

(** A column of the array exists when every row has that index. *)
Lemma column_in_range (rows : list (list Q)) (i : nat) :
  (forall row, In row rows -> (i < List.length row)%nat) ->
  exists col, column rows i = Return col.
Proof.
  unfold column. induction rows as [|row rows IH]; intros H.
  - exists []. reflexivity.
  - cbn [mapM].
    destruct (nth_error row i) as [x|] eqn:E.
    + destruct IH as [col Hcol]. { intros r Hr. apply H. right. exact Hr. }
      rewrite Hcol. exists (x :: col). reflexivity.
    + apply nth_error_None in E.
      specialize (H row (or_introl eq_refl)). lia.
Qed.

(** A comprehension raises what its first failing element raises. *)
Lemma mapM_first_raise {A B : Type} (f : A -> result B)
  (l1 l2 : list A) (z : A) (e : exn) :
  (forall x, In x l1 -> exists y, f x = Return y) ->
  f z = Raise e ->
  mapM f (l1 ++ z :: l2) = Raise e.
Proof.
  intros Hok Hz. induction l1 as [|x l1 IH]; cbn [mapM app].
  - rewrite Hz. reflexivity.
  - destruct (Hok x (or_introl eq_refl)) as [y Hy]. rewrite Hy. cbn [bind].
    rewrite IH; [reflexivity|]. intros x' Hx'. apply Hok. right. exact Hx'.
Qed.

(** With more than one qualifying vector the averaging comprehension runs
    its index over [range(len(boundaries))], one past the last column, and
    the call ends in [IndexError] for every pairing. *)
Lemma several_vectors_raise
  (g : Graph) (boundaries : list Z) (pairing : string * string) :
  (1 < List.length (qualifying g boundaries))%nat ->
  get_incident_frequency_probabilities g boundaries pairing = Raise IndexError.
Proof.
  intros Hmany. unfold get_incident_frequency_probabilities.
  apply Nat.ltb_lt in Hmany. rewrite Hmany. apply Nat.ltb_lt in Hmany.
  destruct (qualifying g boundaries) as [|row rows] eqn:Hq;
    [cbn in Hmany; lia|].
  assert (Hrows : forall r, In r (row :: rows) ->
                            List.length boundaries = S (List.length r)).
  { intros r Hr. apply (qualifying_length g). rewrite Hq. exact Hr. }
  pose proof (Hrows row (or_introl eq_refl)) as Hlen.
  rewrite Hlen, seq_S. cbn [plus].
  erewrite mapM_first_raise; [reflexivity| |].
  - intros i Hi. apply in_seq in Hi.
    destruct (@column_in_range (row :: rows) i) as [col Hcol].
    { intros r Hr. specialize (Hrows r Hr). lia. }
    rewrite Hcol. eexists. reflexivity.
  - unfold column. cbn [mapM].
    replace (nth_error row (List.length row)) with (@None Q).
    + reflexivity.
    + symmetry. apply nth_error_None. lia.
Qed.

(** C6 fails on the code: with the two qualifying vectors [0.7, 0.3] and
    [0.5, 0.5] over three boundaries and a breach probability of 50, the
    resolver raises [IndexError] instead of returning the series built on
    the averaged vector [0.6, 0.4]. *)
Theorem two_vectors_raise_index_error :
  qualifying (with_base 50 [[7 # 10; 3 # 10]; [1 # 2; 1 # 2]]) three_boundaries
  = [[7 # 10; 3 # 10]; [1 # 2; 1 # 2]]
  /\ get_probability_of_breach
       (with_base 50 [[7 # 10; 3 # 10]; [1 # 2; 1 # 2]]) "micro" "C" = Some 50
  /\ get_incident_frequency_probabilities
       (with_base 50 [[7 # 10; 3 # 10]; [1 # 2; 1 # 2]])
       three_boundaries ("micro", "C")
     = Raise IndexError.
Proof.
  split; [reflexivity|]. split; [reflexivity|].
  apply several_vectors_raise. cbn. lia.
Qed.

End ResolverFacts.

(* ================================================================== *)
(** * Distribution fitting *)
(* ================================================================== *)

Module FitterFacts.

Import RegenerateDistributions Examples.
Local Open Scope R_scope.
Local Open Scope string_scope.

(** [np.exp(1) ** x] is [exp x]. *)
Lemma e_power (x : R) : Rpower (exp 1) x = exp x.
Proof.
  unfold Rpower. rewrite ln_exp, Rmult_1_r. reflexivity.
Qed.

(** A median of zero takes the branch [np.log(mean) - 0]. *)
Lemma log_stddev_zero_median (mean median : Q) :
  (median == 0)%Q ->
  log_stddev mean median = sqrt (2 * ln (Q2R mean)).
Proof.
  intros H. unfold log_stddev. apply Qeq_bool_iff in H. rewrite H.
  rewrite Rminus_0_r. reflexivity.
Qed.

(** Any other median takes the branch [np.log(median)]: the mean does not
    enter the result. *)
Lemma log_stddev_nonzero_median (mean median : Q) :
  ~ (median == 0)%Q ->
  log_stddev mean median = sqrt (2 * ln (Q2R median)).
Proof.
  intros H. unfold log_stddev.
  destruct (Qeq_bool median 0) eqn:E; [|reflexivity].
  apply Qeq_bool_iff in E. contradiction.
Qed.

Lemma Q2R_1000 : Q2R 1000 = 1000.
Proof.
  unfold Q2R. cbn [Qnum Qden]. lra.
Qed.

Lemma ln_1000_pos : 0 < ln 1000.
Proof.
  rewrite <- ln_1. apply ln_increasing; lra.
Qed.

(** C1 fails on the code: for mean = median = 1000 the fitter stores the
    standard deviation [exp (sqrt (2 * ln 1000))], which is greater than
    1, where the specification's formula gives [exp 0 = 1]. *)
Theorem equal_mean_and_median_stddev :
  get_incident_cost_averages (size_only_costs 1000 1000) ("micro", "C")
  = Some (Some 1000%Q, Some 1000%Q)
  /\ _generate_new_incident_costs_distribution
       (size_only_costs 1000 1000) ("micro", "C")
     = Return (1%nat, [NewCostsDistribution ("micro", "C") 1000
                         (exp (sqrt (2 * ln 1000)))])
  /\ 1 < exp (sqrt (2 * ln 1000))
  /\ exp (Spec.log_stddev 1000 1000) = 1.
Proof.
  split; [reflexivity|]. split; [|split].
  - unfold _generate_new_incident_costs_distribution.
    change (get_incident_cost_averages (size_only_costs 1000 1000) ("micro", "C"))
      with (Some (Some 1000%Q, Some 1000%Q)).
    cbn [bind]. rewrite e_power, log_stddev_nonzero_median by discriminate.
    rewrite Q2R_1000. reflexivity.
  - rewrite <- exp_0 at 1. apply exp_increasing. apply sqrt_lt_R0.
    pose proof ln_1000_pos. lra.
  - unfold Spec.log_stddev. change (Qeq_bool 1000 0) with false. cbv iota.
    rewrite Rminus_diag, Rmult_0_r, sqrt_0. apply exp_0.
Qed.

(** A tuple with a missing component is tallied as zero distributions. *)
Lemma missing_component_generates_nothing
  (g : Graph) (pairing : string * string) (mean median : option Q) :
  get_incident_cost_averages g pairing = Some (mean, median) ->
  mean = None \/ median = None ->
  _generate_new_incident_costs_distribution g pairing = Return (0%nat, []).
Proof.
  intros E H. unfold _generate_new_incident_costs_distribution.
  rewrite E. cbn [bind].
  destruct H as [-> | ->]; [|destruct mean]; reflexivity.
Qed.

(** When neither node exists the resolver returns [None], which cannot be
    unpacked. *)
Lemma unknown_segment_raises (g : Graph) (size industry : string) :
  _get_node g SizeLabel size = None ->
  _get_node g IndustryLabel industry = None ->
  get_incident_cost_averages g (size, industry) = None
  /\ _generate_new_incident_costs_distribution g (size, industry)
     = Raise TypeError.
Proof.
  intros Hs Hi.
  assert (E : get_incident_cost_averages g (size, industry) = None).
  { rewrite ResolverFacts.get_incident_cost_averages_sides, Hs, Hi.
    reflexivity. }
  split; [exact E|].
  unfold _generate_new_incident_costs_distribution. rewrite E. reflexivity.
Qed.

(** C3 fails on the code for a segment none of whose nodes exists: cost
    resolution returns [None], the fitter raises [TypeError] instead of
    returning 0, and the exception ends the regeneration driver. *)
Theorem unknown_segment_cost_fitting_raises :
  get_incident_cost_averages (store [] [] [] []) ("micro", "C") = None
  /\ _generate_new_incident_costs_distribution (store [] [] [] []) ("micro", "C")
     = Raise TypeError
  /\ _generate_new_distributions (store [] [] [] []) (Some "micro", Some "C")
     = Raise TypeError.
Proof.
  split; [|split].
  - apply unknown_segment_raises; reflexivity.
  - apply unknown_segment_raises; reflexivity.
  - reflexivity.
Qed.

End FitterFacts.

(* ================================================================== *)
(** * Simulation *)
(* ================================================================== *)

Module SimulationFacts.

Import MonteCarlo Spec Examples.
Local Open Scope R_scope.
Local Open Scope string_scope.

(** ** Incident counts *)

(** On a non-negative real [int] is the integer part: the largest integer
    not above it. *)
Lemma int_truncates (x : R) :
  0 <= x -> IZR (Np.int x) <= x < IZR (Np.int x) + 1.
Proof.
  intros Hx. unfold Np.int. destruct (Rle_dec 0 x) as [_|]; [|contradiction].
  destruct (base_Int_part x). lra.
Qed.

(** The sampled value is positive for a positive scale [b]. *)
Lemma sampled_value_pos (a b U : R) :
  0 < b -> 0 < b / Rpower (1 - U) (1 / a).
Proof.
  intros Hb. apply Rdiv_lt_0_compat; [exact Hb|]. unfold Rpower. apply exp_pos.
Qed.

(** C8: for parameters [a > 0], [b > 0] and a draw [U] in [[0, 1)], the
    returned count never exceeds the maximum of 8000; a sampled value
    [b / (1 - U)^(1/a)] at or below the maximum is truncated to the
    integer just below or equal to it, and a larger one is replaced by the
    maximum. *)
Theorem incident_count_is_capped (incidents_dist : FrequencyDict) (U : R) :
  (0 < dist_a incidents_dist)%Q ->
  (0 < dist_b incidents_dist)%Q ->
  0 <= U < 1 ->
  let sampled :=
    Q2R (dist_b incidents_dist)
    / Rpower (1 - U) (1 / Q2R (dist_a incidents_dist)) in
  let count := _calculate_num_of_incidents incidents_dist U in
  (0 <= count <= MAX_ANNUAL_INCIDENTS)%Z
  /\ (sampled <= IZR MAX_ANNUAL_INCIDENTS ->
      IZR count <= sampled < IZR count + 1)
  /\ (IZR MAX_ANNUAL_INCIDENTS < sampled -> count = MAX_ANNUAL_INCIDENTS).
Proof.
  intros _ Hb _ sampled count.
  assert (Hpos : 0 < sampled).
  { apply sampled_value_pos. replace 0 with (Q2R 0) by (unfold Q2R; cbn; lra).
    apply Qlt_Rlt. exact Hb. }
  assert (Htrunc : IZR (Np.int sampled) <= sampled < IZR (Np.int sampled) + 1).
  { apply int_truncates. lra. }
  subst count. unfold _calculate_num_of_incidents. fold sampled.
  destruct (Rle_dec sampled (IZR MAX_ANNUAL_INCIDENTS)) as [Hle|Hgt].
  - split; [split|split].
    + apply Z.lt_succ_r. apply lt_IZR. rewrite succ_IZR. lra.
    + apply le_IZR. lra.
    + intros _. exact Htrunc.
    + intros H. lra.
  - split; [|split].
    + unfold MAX_ANNUAL_INCIDENTS. lia.
    + intros H. contradiction.
    + intros _. reflexivity.
Qed.

(** An instance: with [a = 1], [b = 2.7] and [U = 0] the sampled value is
    2.7 and the count is 2. *)
Lemma incident_count_is_capped_witness :
  _calculate_num_of_incidents {| dist_a := 1; dist_b := 27 # 10 |} 0 = 2%Z.
Proof.
  destruct (incident_count_is_capped {| dist_a := 1; dist_b := 27 # 10 |} (U := 0))
    as ((H0 & Hmax) & Hle & _); [reflexivity | reflexivity | lra |].
  cbn [dist_a dist_b] in Hle.
  assert (E : Q2R (27 # 10) / Rpower (1 - 0) (1 / Q2R 1) = 27 / 10).
  { replace (1 - 0) with 1 by lra.
    replace (1 / Q2R 1) with 1 by (unfold Q2R; cbn; lra).
    rewrite Rpower_1 by lra. unfold Q2R. cbn. lra. }
  rewrite E in Hle. unfold MAX_ANNUAL_INCIDENTS in Hle.
  destruct Hle as [Hlo Hhi]; [lra|].
  assert (_calculate_num_of_incidents {| dist_a := 1; dist_b := 27 # 10 |} 0 < 3)%Z
    by (apply lt_IZR; lra).
  assert (1 < _calculate_num_of_incidents {| dist_a := 1; dist_b := 27 # 10 |} 0)%Z
    by (apply lt_IZR; lra).
  lia.
Defined.

(** ** The loss exceedance curve *)

Lemma cumsum_from_app (acc : Z) (l1 l2 : list Z) :
  Np.cumsum_from Z.add acc (l1 ++ l2)
  = (Np.cumsum_from Z.add acc l1
     ++ Np.cumsum_from Z.add (acc + fold_right Z.add 0 l1)%Z l2)%list.
Proof.
  revert acc. induction l1 as [|x l1 IH]; intros acc; cbn.
  - rewrite Z.add_0_r. reflexivity.
  - rewrite IH. do 3 f_equal. lia.
Qed.

Lemma total_rev (l : list Z) :
  fold_right Z.add 0%Z (rev l) = fold_right Z.add 0%Z l.
Proof.
  induction l as [|x l IH]; cbn; [reflexivity|].
  rewrite fold_right_app. cbn. rewrite <- IH.
  generalize (rev l). intros l'. induction l' as [|y l' IH']; cbn; lia.
Qed.

(** Reversing, accumulating and reversing again gives the suffix sums. *)
Lemma reverse_cumsum_is_suffix_sums (hist : list Z) :
  rev (Np.cumsum_Z (rev hist)) = Spec.suffix_sums hist.
Proof.
  unfold Np.cumsum_Z. induction hist as [|x hist IH]; [reflexivity|].
  cbn [rev Spec.suffix_sums]. rewrite cumsum_from_app, rev_app_distr.
  cbn [Np.cumsum_from rev app]. rewrite IH, total_rev. f_equal. lia.
Qed.

Lemma suffix_sums_bounded (hist : list Z) :
  Forall (fun c => 0 <= c)%Z hist ->
  (0 <= fold_right Z.add 0 hist)%Z
  /\ Forall (fun s => s <= fold_right Z.add 0 hist)%Z (Spec.suffix_sums hist).
Proof.
  induction 1 as [|x hist Hx _ [IH0 IH]]; cbn.
  - split; [lia | constructor].
  - split; [lia|]. constructor; [lia|].
    eapply Forall_impl; [|exact IH]. cbn. intros s Hs. lia.
Qed.

(** Suffix sums of counts never grow along the list. *)
Lemma suffix_sums_sorted (hist : list Z) :
  Forall (fun c => 0 <= c)%Z hist ->
  StronglySorted Z.ge (Spec.suffix_sums hist).
Proof.
  induction 1 as [|x hist Hx Hh IH]; cbn; constructor; [exact IH|].
  destruct (suffix_sums_bounded Hh) as [_ Hb].
  eapply Forall_impl; [|exact Hb]. cbn. intros s Hs. lia.
Qed.

Lemma StronglySorted_map {A B : Type} (RA : A -> A -> Prop)
  (RB : B -> B -> Prop) (f : A -> B) (l : list A) :
  (forall x y, RA x y -> RB (f x) (f y)) ->
  StronglySorted RA l -> StronglySorted RB (map f l).
Proof.
  intros Hf. induction 1 as [|x l Hl IH Hx]; cbn; constructor; [exact IH|].
  apply Forall_map. eapply Forall_impl; [|exact Hx]. intros y. apply Hf.
Qed.

(** The percentages of a histogram of counts never grow along the bins. *)
Lemma cumrev_non_increasing (hist : list Z) (n : nat) :
  Forall (fun c => 0 <= c)%Z hist ->
  (0 < n)%nat ->
  non_increasing (cumrev hist n).
Proof.
  intros Hh Hn. unfold cumrev, non_increasing.
  rewrite reverse_cumsum_is_suffix_sums.
  apply StronglySorted_map with (RA := Z.ge); [|apply suffix_sums_sorted, Hh].
  intros x y Hxy. apply lt_0_INR in Hn.
  apply Rle_ge. apply Rmult_le_compat_r.
  - apply Rlt_le, Rinv_0_lt_compat, Hn.
  - apply IZR_le. lia.
Qed.

Lemma amin_le (x : R) (xs : list R) : Np.amin x xs <= x.
Proof.
  unfold Np.amin. revert x. induction xs as [|y xs IH]; intros x; cbn.
  - lra.
  - eapply Rle_trans; [apply IH | apply Rmin_l].
Qed.

Lemma amax_ge (x : R) (xs : list R) : x <= Np.amax x xs.
Proof.
  unfold Np.amax. revert x. induction xs as [|y xs IH]; intros x; cbn.
  - lra.
  - eapply Rle_trans; [apply Rmax_l | apply IH].
Qed.

(** The histogram's range is never empty. *)
Lemma outer_edges_apart (a : list R) :
  fst (Np.outer_edges a) < snd (Np.outer_edges a).
Proof.
  destruct a as [|x xs]; cbn [Np.outer_edges].
  - cbn. lra.
  - pose proof (amin_le x xs). pose proof (amax_ge x xs).
    destruct (Req_dec_T (Np.amin x xs) (Np.amax x xs)); cbn [fst snd]; lra.
Qed.

Lemma evenly_spaced_increasing (first_edge width : R) (start count : nat) :
  0 < width ->
  increasing (map (fun i => first_edge + INR i * width) (seq start count)).
Proof.
  intros Hw. unfold increasing.
  apply StronglySorted_map with (RA := lt).
  - intros i j Hij. apply lt_INR in Hij. nra.
  - revert start. induction count as [|count IH]; intros start; cbn;
      constructor; [apply IH|].
    apply Forall_forall. intros j Hj. apply in_seq in Hj. lia.
Qed.

(** The histogram has one count per bin and no count is negative. *)
Lemma histogram_counts (a : list R) (bins : nat) :
  List.length (fst (Np.histogram a bins)) = bins
  /\ Forall (fun c => 0 <= c)%Z (fst (Np.histogram a bins)).
Proof.
  unfold Np.histogram. destruct (Np.outer_edges a) as [first_edge last_edge].
  cbn [fst]. split.
  - rewrite length_map, length_seq. reflexivity.
  - apply Forall_map, Forall_forall. intros i _. lia.
Qed.

(** C9: for every non-empty list of simulated annual costs, the loss
    exceedance curve has one point per bin, its cost coordinates (the
    bins' lower edges) increase, and its percentages never increase along
    them. *)
Theorem loss_exceedance_curve_non_increasing (sum_costs : list R) :
  sum_costs <> [] ->
  List.length (fst (loss_exceedance_curve sum_costs)) = LEC_PRECISION
  /\ List.length (snd (loss_exceedance_curve sum_costs)) = LEC_PRECISION
  /\ increasing (fst (loss_exceedance_curve sum_costs))
  /\ non_increasing (snd (loss_exceedance_curve sum_costs)).
Proof.
  intros Hne.
  assert (Hn : (0 < List.length sum_costs)%nat).
  { destruct sum_costs; [contradiction | cbn; lia]. }
  assert (Hbins : 0 < INR LEC_PRECISION).
  { apply lt_0_INR. unfold LEC_PRECISION, COMPANY_VALUE. cbn. lia. }
  pose proof (histogram_counts sum_costs LEC_PRECISION) as [Hlen Hcounts].
  pose proof (outer_edges_apart sum_costs) as Hrange.
  unfold loss_exceedance_curve.
  generalize dependent LEC_PRECISION. intros bins Hbins Hlen Hcounts.
  unfold Np.histogram in *.
  destruct (Np.outer_edges sum_costs) as [first_edge last_edge].
  cbn [fst snd] in *. rewrite removelast_last.
  repeat split.
  - rewrite length_map, length_seq. reflexivity.
  - unfold cumrev. rewrite length_map, length_rev.
    unfold Np.cumsum_Z.
    assert (L : forall acc l, List.length (Np.cumsum_from Z.add acc l)
                              = List.length l).
    { intros acc l. revert acc. induction l; intros; cbn; congruence. }
    rewrite L, length_rev. exact Hlen.
  - apply evenly_spaced_increasing. apply Rdiv_lt_0_compat; lra.
  - apply cumrev_non_increasing; assumption.
Qed.

(** An instance: three simulated years costing 0, 5000 and 120000. *)
Lemma loss_exceedance_curve_non_increasing_witness :
  non_increasing (snd (loss_exceedance_curve [0; 5000; 120000])).
Proof.
  apply (loss_exceedance_curve_non_increasing (sum_costs := [0; 5000; 120000])).
  discriminate.
Defined.

(** ** Missing distributions *)

Lemma no_frequency_nodes (g : Graph) (size industry : string) :
  frequency_nodes g size industry = [] ->
  _get_frequency_distribution g size industry
  = if String.eqb size All && String.eqb industry All
    then Raise (Exception "No fallback node found!")
    else Return DNonePair.
Proof.
  intros H. unfold _get_frequency_distribution. rewrite H. reflexivity.
Qed.

Lemma no_costs_nodes (g : Graph) (size industry : string) :
  costs_nodes g size industry = [] ->
  _get_costs_distribution g size industry
  = if String.eqb size All && String.eqb industry All
    then Raise (Exception "No fallback node found!")
    else Return DNonePair.
Proof.
  intros H. unfold _get_costs_distribution. rewrite H. reflexivity.
Qed.

Lemma not_universal (size industry : string) :
  (size, industry) <> (All, All) ->
  String.eqb size All && String.eqb industry All = false.
Proof.
  intros H. apply andb_false_iff.
  destruct (String.eqb_spec size All) as [->|]; [|left; reflexivity].
  destruct (String.eqb_spec industry All) as [->|]; [|right; reflexivity].
  contradiction H. reflexivity.
Qed.

(** The public getters hand on what the private ones raise for the
    universal segment. *)
Lemma universal_frequency_raises (g : Graph) (e : exn) :
  _get_frequency_distribution g All All = Raise e ->
  get_incident_frequency_distribution g (All, All) = Raise e.
Proof.
  intros H. unfold get_incident_frequency_distribution. cbn [fst snd].
  rewrite H.
  destruct (_get_node g SizeLabel All), (_get_node g IndustryLabel All);
    reflexivity.
Qed.

Lemma universal_costs_raises (g : Graph) (e : exn) :
  _get_costs_distribution g All All = Raise e ->
  get_incident_costs_distribution g (All, All) = Raise e.
Proof.
  intros H. unfold get_incident_costs_distribution. cbn [fst snd].
  rewrite H.
  destruct (_get_node g SizeLabel All), (_get_node g IndustryLabel All);
    reflexivity.
Qed.

(** The public getters never return [None] or the tuple: they return a
    dict or raise. *)
Lemma frequency_distribution_is_dict_or_raises
  (g : Graph) (pairing : string * string) :
  (exists d, get_incident_frequency_distribution g pairing = Return (DDict d))
  \/ (exists e, get_incident_frequency_distribution g pairing = Raise e).
Proof.
  assert (H : forall size industry,
             (exists d, _get_frequency_distribution g size industry
                        = Return (DDict d))
             \/ (exists e, _get_frequency_distribution g size industry = Raise e)
             \/ (_get_frequency_distribution g size industry = Return DNonePair)).
  { intros size industry. unfold _get_frequency_distribution.
    destruct (_ =? 0)%nat; [destruct (_ && _)|destruct (_ <? _)%nat]; eauto. }
  unfold get_incident_frequency_distribution.
  destruct (_get_node g SizeLabel (fst pairing)),
    (_get_node g IndustryLabel (snd pairing)).
  4: { destruct (H All All) as [[d E]|[[e E]|E]]; eauto.
       exfalso. unfold _get_frequency_distribution in E.
       destruct (_ =? 0)%nat; [|destruct (_ <? _)%nat]; discriminate. }
  all: destruct (H (fst pairing) (snd pairing)) as [[d E]|[[e E]|E]];
    rewrite E; cbn; eauto.
Qed.

Lemma costs_distribution_is_dict_or_raises
  (g : Graph) (pairing : string * string) :
  (exists d, get_incident_costs_distribution g pairing = Return (DDict d))
  \/ (exists e, get_incident_costs_distribution g pairing = Raise e).
Proof.
  assert (H : forall size industry,
             (exists d, _get_costs_distribution g size industry
                        = Return (DDict d))
             \/ (exists e, _get_costs_distribution g size industry = Raise e)
             \/ (_get_costs_distribution g size industry = Return DNonePair)).
  { intros size industry. unfold _get_costs_distribution.
    destruct (_ =? 0)%nat; [destruct (_ && _)|destruct (_ <? _)%nat]; eauto. }
  unfold get_incident_costs_distribution.
  destruct (_get_node g SizeLabel (fst pairing)),
    (_get_node g IndustryLabel (snd pairing)).
  4: { destruct (H All All) as [[d E]|[[e E]|E]]; eauto.
       exfalso. unfold _get_costs_distribution in E.
       destruct (_ =? 0)%nat; [|destruct (_ <? _)%nat]; discriminate. }
  all: destruct (H (fst pairing) (snd pairing)) as [[d E]|[[e E]|E]];
    rewrite E; cbn; eauto.
Qed.

(** Fresh retrieval for the universal segment raises when the universal
    frequency or costs distribution is missing. *)
Lemma fresh_universal_raises (cfg : Config) (g : Graph) (w : World) :
  frequency_nodes g All All = [] \/ costs_nodes g All All = [] ->
  exists e, fresh_distributions cfg g (All, All) w = (w, Raise e).
Proof.
  intros H. unfold fresh_distributions, bindM, lift.
  destruct H as [H|H].
  - rewrite (universal_frequency_raises g (e := Exception "No fallback node found!")).
    + eauto.
    + rewrite (no_frequency_nodes _ _ _ H). reflexivity.
  - destruct (get_incident_frequency_distribution g (All, All)); [|eauto].
    rewrite (universal_costs_raises g (e := Exception "No fallback node found!")).
    + eauto.
    + rewrite (no_costs_nodes _ _ _ H). reflexivity.
Qed.

Section Driver.

Variable uniform : nat -> R.
Variable lognormvariate : nat -> R -> R -> R.

(** Fresh retrieval returns two dicts or raises. *)
Lemma fresh_distributions_are_dicts
  (cfg : Config) (g : Graph) (pairing : string * string) (w : World) :
  (exists w' df dc,
      fresh_distributions cfg g pairing w = (w', Return (DDict df, DDict dc)))
  \/ (exists w' e, fresh_distributions cfg g pairing w = (w', Raise e)).
Proof.
  unfold fresh_distributions, bindM, lift.
  destruct (frequency_distribution_is_dict_or_raises g pairing)
    as [[df ->]|[e ->]]; [|right; eauto].
  destruct (costs_distribution_is_dict_or_raises g pairing)
    as [[dc ->]|[e ->]]; [|right; eauto].
  left. destruct (OUTPUT_DIR cfg); cbn; do 3 eexists; reflexivity.
Qed.

Lemma bindM_Return {A B : Type} (c : M A) (k : A -> M B)
  (w w' : World) (a : A) :
  c w = (w', Return a) -> bindM c k w = k a w'.
Proof.
  intros E. unfold bindM. rewrite E. reflexivity.
Qed.

Lemma bindM_Raise {A B : Type} (c : M A) (k : A -> M B)
  (w w' : World) (e : exn) :
  c w = (w', Raise e) -> bindM c k w = (w', Raise e).
Proof.
  intros E. unfold bindM. rewrite E. reflexivity.
Qed.

(** Sequencing keeps the alternative "both samples or an exception" when
    every continuation has it. *)
Lemma bind_samples_or_raises {A : Type} (c : M A)
  (k : A -> M (option (list Z) * option (list R))) (w : World) :
  (forall a w1,
      (exists w' nums costs, k a w1 = (w', Return (Some nums, Some costs)))
      \/ (exists w' e, k a w1 = (w', Raise e))) ->
  (exists w' nums costs, bindM c k w = (w', Return (Some nums, Some costs)))
  \/ (exists w' e, bindM c k w = (w', Raise e)).
Proof.
  intros H. unfold bindM. destruct (c w) as [w1 [a|e]]; [apply H|].
  right. eauto.
Qed.

(** A simulation on freshly resolved distributions returns both samples
    or raises: the pair [(None, None)] that [main] reports as
    "No data found." never comes back. *)
Lemma fresh_simulation_returns_samples_or_raises
  (cfg : Config) (g : Graph) (pairing : string * string) (w : World) :
  FORCE cfg = true ->
  (exists w' nums costs,
      _run_monte_carlo_simulation uniform lognormvariate cfg g pairing w
      = (w', Return (Some nums, Some costs)))
  \/ (exists w' e,
         _run_monte_carlo_simulation uniform lognormvariate cfg g pairing w
         = (w', Raise e)).
Proof.
  intros Hforce.
  unfold _run_monte_carlo_simulation, _get_most_relevant_distributions.
  rewrite Hforce. cbv iota.
  destruct (fresh_distributions_are_dicts cfg g pairing w)
    as [(w1 & df & dc & E)|(w1 & e & E)].
  2: { right. erewrite bindM_Raise by exact E. eauto. }
  erewrite bindM_Return by exact E. cbv iota.
  apply bind_samples_or_raises. intros nums w2.
  apply bind_samples_or_raises. intros _ w3.
  apply bind_samples_or_raises. intros costs w4.
  apply bind_samples_or_raises. intros _ w5.
  apply bind_samples_or_raises. intros _ w6.
  apply bind_samples_or_raises. intros _ w7.
  destruct (loss_exceedance_curve costs) as [xs ys].
  apply bind_samples_or_raises. intros _ w8.
  apply bind_samples_or_raises. intros _ w9.
  left. do 3 eexists. reflexivity.
Qed.

(** A forced run of the script ends in an exception when a universal
    distribution is missing, whatever segment was requested. *)
Lemma main_aborts_without_fallback
  (cfg : Config) (g : Graph) (size industry : string) (w : World) :
  FORCE cfg = true ->
  frequency_nodes g All All = [] \/ costs_nodes g All All = [] ->
  exists e, snd (main uniform lognormvariate cfg g size industry w) = Raise e.
Proof.
  intros Hforce Hmissing. unfold main.
  unfold bindM at 1.
  match goal with |- context [match ?c w with _ => _ end] =>
    destruct (c w) as [w1 [[]|e]] end; [|cbn; eauto].
  unfold bindM at 1. unfold print at 1.
  unfold bindM at 1. unfold _run_monte_carlo_simulation at 1.
  unfold bindM at 1. unfold _get_most_relevant_distributions. rewrite Hforce.
  match goal with |- context [fresh_distributions cfg g (All, All) ?w'] =>
    destruct (fresh_universal_raises cfg g w' Hmissing) as [e ->] end.
  cbn. eauto.
Qed.

(** C4 fails on the code: for the requested segment (micro, C), whose
    nodes exist but which has no stored distribution, a run with 3 trials
    and an empty cache prints the announcement for (micro, C) and then
    ends in [TypeError]; it prints neither "No data found." nor anything
    for the universal segment, whose distributions are stored. *)
Theorem missing_segment_distribution_halts_run :
  _get_frequency_distribution universal_only "micro" "C" = Return DNonePair
  /\ get_incident_frequency_distribution universal_only ("micro", "C")
     = Raise TypeError
  /\ (exists d, get_incident_frequency_distribution universal_only (All, All)
                = Return (DDict d))
  /\ main uniform lognormvariate config universal_only "micro" "C" empty_world
     = ({| files := []; stdout := [RunningSimulationFor "micro" "C"];
           lec_plots := []; np_draws := 0; py_draws := 0 |},
        Raise TypeError).
Proof.
  split; [reflexivity|]. split; [reflexivity|]. split; [|reflexivity].
  eexists. reflexivity.
Qed.

End Driver.

(** When no stored node matches, the private getters of the frequency and
    of the costs distribution raise "No fallback node found!" for the
    universal (All, All) segment and return the tuple [(None, None)] for
    every other pairing; for the universal segment the public getters
    raise the same exception, and a forced run of the simulation script
    ends in an exception. What the public getters make of the tuple is
    the subject of [absent_pairing_distribution_is_fatal]. *)
Lemma missing_fallback_is_fatal (g : Graph) :
  (frequency_nodes g All All = [] ->
   _get_frequency_distribution g All All
   = Raise (Exception "No fallback node found!")
   /\ get_incident_frequency_distribution g (All, All)
      = Raise (Exception "No fallback node found!"))
  /\ (costs_nodes g All All = [] ->
      _get_costs_distribution g All All
      = Raise (Exception "No fallback node found!")
      /\ get_incident_costs_distribution g (All, All)
         = Raise (Exception "No fallback node found!"))
  /\ (frequency_nodes g All All = [] \/ costs_nodes g All All = [] ->
      forall uniform lognormvariate cfg size industry w,
        FORCE cfg = true ->
        exists e,
          snd (main uniform lognormvariate cfg g size industry w) = Raise e)
  /\ (forall size industry,
        (size, industry) <> (All, All) ->
        (frequency_nodes g size industry = [] ->
         _get_frequency_distribution g size industry = Return DNonePair)
        /\ (costs_nodes g size industry = [] ->
            _get_costs_distribution g size industry = Return DNonePair)).
Proof.
  repeat split.
  - rewrite (no_frequency_nodes _ _ _ H). reflexivity.
  - apply universal_frequency_raises.
    rewrite (no_frequency_nodes _ _ _ H). reflexivity.
  - rewrite (no_costs_nodes _ _ _ H). reflexivity.
  - apply universal_costs_raises.
    rewrite (no_costs_nodes _ _ _ H). reflexivity.
  - intros. apply main_aborts_without_fallback; assumption.
  - intros E. rewrite (no_frequency_nodes _ _ _ E), not_universal by assumption.
    reflexivity.
  - intros E. rewrite (no_costs_nodes _ _ _ E), not_universal by assumption.
    reflexivity.
Qed.

(** An instance: a store with no distribution at all. *)
Lemma missing_fallback_is_fatal_witness :
  _get_frequency_distribution no_distributions All All
  = Raise (Exception "No fallback node found!")
  /\ _get_costs_distribution no_distributions All All
     = Raise (Exception "No fallback node found!")
  /\ _get_frequency_distribution no_distributions "micro" "C" = Return DNonePair
  /\ _get_costs_distribution no_distributions "micro" "C" = Return DNonePair.
Proof.
  destruct (missing_fallback_is_fatal no_distributions)
    as (Hf & Hc & _ & Hother).
  split; [apply Hf; reflexivity|].
  split; [apply Hc; reflexivity|].
  destruct (Hother "micro" "C") as [Hof Hoc]; [discriminate|].
  split; [apply Hof | apply Hoc]; reflexivity.
Defined.

(** C7 fails on the code in its second half. The first half holds: on a
    store with no distribution at all, the public getters raise
    "No fallback node found!" for the universal segment and the run ends
    in that exception right after announcing (All, All). The absence of a
    distribution for another pairing, however, is fatal as well: on a
    store that holds the universal distributions only, the private
    getters return the tuple [(None, None)] for (micro, C), the public
    getters raise [TypeError] when they subscript it, and a run of 3
    trials for (micro, C) from an empty cache, forced or not, ends in
    [TypeError] after the announcement, having printed no
    "No data found." and nothing for the universal segment. *)
Theorem absent_pairing_distribution_is_fatal
  (uniform : nat -> R) (lognormvariate : nat -> R -> R -> R) :
  get_incident_frequency_distribution no_distributions (All, All)
  = Raise (Exception "No fallback node found!")
  /\ get_incident_costs_distribution no_distributions (All, All)
     = Raise (Exception "No fallback node found!")
  /\ main uniform lognormvariate config no_distributions "" "" empty_world
     = ({| files := []; stdout := [RunningSimulationFor All All];
           lec_plots := []; np_draws := 0; py_draws := 0 |},
        Raise (Exception "No fallback node found!"))
  /\ _get_frequency_distribution universal_only "micro" "C" = Return DNonePair
  /\ _get_costs_distribution universal_only "micro" "C" = Return DNonePair
  /\ get_incident_frequency_distribution universal_only ("micro", "C")
     = Raise TypeError
  /\ get_incident_costs_distribution universal_only ("micro", "C")
     = Raise TypeError
  /\ (forall force,
        main uniform lognormvariate
             {| N := 3; OUTPUT_DIR := Some "output/"; IMAGES := false;
                FORCE := force |}
             universal_only "micro" "C" empty_world
        = ({| files := []; stdout := [RunningSimulationFor "micro" "C"];
              lec_plots := []; np_draws := 0; py_draws := 0 |},
           Raise TypeError)).
Proof.
  repeat split. intros []; reflexivity.
Qed.

End SimulationFacts.

(* ================================================================== *)
(** * Further properties of evidence resolution *)
(* ================================================================== *)

Module ResolverProperties.

Import Spec Examples Vocabulary.
Local Open Scope Q_scope.
Local Open Scope string_scope.

(** ** Resolved values stay within the evidence *)

Lemma len_cons {A : Type} (x : A) (xs : list A) : len (x :: xs) == len xs + 1.
Proof.
  unfold len. cbn [List.length]. rewrite Nat2Z.inj_succ, <- Z.add_1_r.
  rewrite inject_Z_plus. reflexivity.
Qed.

Lemma len_nonneg {A : Type} (xs : list A) : 0 <= len xs.
Proof.
  unfold len. change 0 with (inject_Z 0). rewrite <- Zle_Qle. lia.
Qed.

(** The running total of [sum] from any starting value. *)
Lemma fold_sum_within (lo hi : Q) (xs : list Q) (acc : Q) :
  Forall (within lo hi) xs ->
  acc + lo * len xs <= fold_left Qplus xs acc <= acc + hi * len xs.
Proof.
  intros H. revert acc. induction H as [|x xs [Hlo Hhi] _ IH]; intros acc.
  - cbn [fold_left]. change (len (@nil Q)) with 0. split; Lqa.lra.
  - cbn [fold_left]. specialize (IH (acc + x)). rewrite len_cons.
    destruct IH as [IHlo IHhi]. split; Lqa.lra.
Qed.

(** The value a side contributes lies between the bounds of its raw
    values. *)
Lemma one_value_within (lo hi : Q) (xs : list Q) (v : Q) :
  Forall (within lo hi) xs -> one_value xs = Some v -> within lo hi v.
Proof.
  intros H E. destruct xs as [|x [|y xs]]; cbn [one_value] in E.
  - discriminate.
  - inversion E; subst. inversion H; subst. assumption.
  - inversion E; subst. clear E.
    destruct (fold_sum_within 0 H) as [Hlo Hhi]. fold (sum (x :: y :: xs)) in *.
    assert (Hn : 0 < len (x :: y :: xs)).
    { rewrite len_cons. pose proof (len_nonneg (y :: xs)). Lqa.lra. }
    split; [apply Qle_shift_div_l | apply Qle_shift_div_r];
      try exact Hn; Lqa.lra.
Qed.

(** The closing [if]/[else] returns the mean of two values or one of
    them. *)
Lemma both_or_either_within (lo hi : Q) (s i : option Q) (v : Q) :
  (forall a, s = Some a -> within lo hi a) ->
  (forall b, i = Some b -> within lo hi b) ->
  both_or_either s i = Some v -> within lo hi v.
Proof.
  intros Hs Hi. unfold both_or_either, or_.
  destruct s as [a|], i as [b|]; cbn [truthy andb];
    repeat match goal with
           | |- context [if ?c then _ else _] => destruct c
           end;
    intros E; inversion E; subst; auto.
  destruct (Hs a eq_refl), (Hi b eq_refl).
  split; [apply Qle_shift_div_l | apply Qle_shift_div_r];
    try reflexivity; Lqa.lra.
Qed.

Lemma probabilities_of_within (P : Q -> Prop) (g : Graph) (rels : list Relationship) :
  (forall rel q, In rel rels -> start_node rel = IncidentProbability q -> P q) ->
  Forall P (probabilities_of rels).
Proof.
  intros H. apply Forall_forall. intros q Hq. unfold probabilities_of in Hq.
  apply in_flat_map in Hq. destruct Hq as (rel & Hrel & Hin).
  destruct (start_node rel) eqn:E; cbn in Hin; [|contradiction].
  destruct Hin as [<-|[]]. eapply H; eassumption.
Qed.

Lemma means_medians_within (P Pd : Q -> Prop) (rels : list Relationship) :
  (forall rel m d, In rel rels -> start_node rel = IncidentCostAverages m d ->
                   P m /\ Pd d) ->
  Forall P (means_of rels) /\ Forall Pd (medians_of rels).
Proof.
  intros H. split; apply Forall_forall; intros q Hq;
    [unfold means_of in Hq | unfold medians_of in Hq];
    apply in_flat_map in Hq; destruct Hq as (rel & Hrel & Hin);
    destruct (start_node rel) eqn:E; cbn in Hin; try contradiction;
    destruct Hin as [<-|[]]; eapply H; eassumption.
Qed.

Lemma match_incl (g : Graph) (node : string) (t : RelType) (rel : Relationship) :
  In rel (match_ g node t) -> In rel (relationships g).
Proof.
  unfold match_. rewrite filter_In. tauto.
Qed.

(** X1: the resolved breach probability lies between any two bounds that
    hold for every stored breach probability; with all evidence in
    [[0, 100]] the result is in [[0, 100]]. *)
Theorem breach_probability_within_evidence
  (g : Graph) (size industry : string) (lo hi p : Q) :
  (forall rel q, In rel (relationships g) ->
                 start_node rel = IncidentProbability q -> lo <= q <= hi) ->
  get_probability_of_breach g size industry = Some p ->
  lo <= p <= hi.
Proof.
  intros H E. rewrite ResolverFacts.get_probability_of_breach_sides in E.
  apply (both_or_either_within (lo := lo) (hi := hi)) in E; [exact E| |].
  - intros a Ha. unfold size_probability in Ha.
    destruct (_get_node g SizeLabel size); [|discriminate].
    eapply one_value_within; [|exact Ha].
    apply (probabilities_of_within _ g). intros rel q Hin.
    apply H. eapply match_incl. exact Hin.
  - intros b Hb. unfold industry_probability in Hb.
    destruct (_get_node g IndustryLabel industry); [|discriminate].
    eapply one_value_within; [|exact Hb].
    apply (probabilities_of_within _ g). intros rel q Hin.
    apply H. eapply match_incl. exact Hin.
Qed.

(** An instance: probabilities 40 and 60 resolve to a value in
    [[0, 100]]. *)
Lemma breach_probability_within_evidence_witness :
  exists p, get_probability_of_breach (two_sided 40 60) "micro" "C" = Some p
            /\ 0 <= p <= 100.
Proof.
  eexists. split; [reflexivity|].
  apply (@breach_probability_within_evidence
           (two_sided 40 60) "micro" "C" 0 100 ((40 + 60) / 2)).
  - intros rel q [<-|[<-|[]]] E; inversion E; subst; split; discriminate.
  - reflexivity.
Defined.

(** X2: the resolved cost mean lies between any two bounds that hold for
    every stored mean, and the resolved median between any two bounds that
    hold for every stored median. *)
Theorem cost_averages_within_evidence
  (g : Graph) (pairing : string * string) (lo hi lo' hi' : Q)
  (mean median : option Q) :
  (forall rel m d, In rel (relationships g) ->
                   start_node rel = IncidentCostAverages m d ->
                   lo <= m <= hi /\ lo' <= d <= hi') ->
  get_incident_cost_averages g pairing = Some (mean, median) ->
  (forall m, mean = Some m -> lo <= m <= hi)
  /\ (forall d, median = Some d -> lo' <= d <= hi').
Proof.
  intros H E. destruct pairing as [size industry].
  rewrite ResolverFacts.get_incident_cost_averages_sides in E.
  assert (Hside : forall node t,
             Forall (within lo hi) (means_of (match_ g node t))
             /\ Forall (within lo' hi') (medians_of (match_ g node t))).
  { intros node t. apply means_medians_within. intros rel m d Hin.
    apply H. eapply match_incl. exact Hin. }
  assert (E' : Some (both_or_either (size_mean g size) (industry_mean g industry),
                     both_or_either (size_median g size)
                                    (industry_median g industry))
               = Some (mean, median)).
  { destruct (_get_node g SizeLabel size),
      (_get_node g IndustryLabel industry); try exact E. discriminate. }
  inversion E' as [[Hm Hd]]. clear E E'.
  split; intros v Hv; subst.
  - eapply (both_or_either_within (lo := lo) (hi := hi)); [| |exact Hv].
    + intros a Ha. unfold size_mean in Ha.
      destruct (_get_node g SizeLabel size); [|discriminate].
      eapply one_value_within; [apply Hside|exact Ha].
    + intros b Hb. unfold industry_mean in Hb.
      destruct (_get_node g IndustryLabel industry); [|discriminate].
      eapply one_value_within; [apply Hside|exact Hb].
  - eapply (both_or_either_within (lo := lo') (hi := hi')); [| |exact Hv].
    + intros a Ha. unfold size_median in Ha.
      destruct (_get_node g SizeLabel size); [|discriminate].
      eapply one_value_within; [apply Hside|exact Ha].
    + intros b Hb. unfold industry_median in Hb.
      destruct (_get_node g IndustryLabel industry); [|discriminate].
      eapply one_value_within; [apply Hside|exact Hb].
Qed.

(** An instance: cost averages (1000, 800) and (3000, 1200). *)
Lemma cost_averages_within_evidence_witness :
  exists m d,
    get_incident_cost_averages (two_sided_costs 1000 800 3000 1200) ("micro", "C")
    = Some (Some m, Some d)
    /\ 1000 <= m <= 3000 /\ 800 <= d <= 1200.
Proof.
  do 2 eexists. split; [reflexivity|].
  destruct (@cost_averages_within_evidence
              (two_sided_costs 1000 800 3000 1200) ("micro", "C")
              1000 3000 800 1200
              (Some ((1000 + 3000) / 2)) (Some ((800 + 1200) / 2)))
    as [Hm Hd].
  - intros rel m d [<-|[<-|[]]] E; inversion E; subst;
      repeat split; discriminate.
  - reflexivity.
  - split; [apply Hm | apply Hd]; reflexivity.
Defined.

(** ** Outcomes of get_incident_frequency_probabilities *)

(** With exactly one qualifying vector and a non-zero probability the
    series is built from that vector. *)
Lemma series_of_one_vector
  (g : Graph) (boundaries : list Z) (size industry : string)
  (p : Q) (qs : list Q) :
  qualifying g boundaries = [qs] ->
  get_probability_of_breach g size industry = Some p ->
  ~ p == 0 ->
  get_incident_frequency_probabilities g boundaries (size, industry)
  = Return (Some ((100 - p) / 100 :: map (fun q => (p * q) / 100) qs)).
Proof.
  intros Hq Hp Hnz.
  assert (Hlen : List.length boundaries = S (List.length qs)).
  { apply (ResolverFacts.qualifying_length g). rewrite Hq. left. reflexivity. }
  unfold get_incident_frequency_probabilities. cbn [fst snd].
  rewrite Hq, Hp. cbn [List.length Nat.ltb Nat.leb bind first_vector].
  apply ResolverFacts.truthy_Some in Hnz. rewrite Hnz.
  rewrite length_map, Hlen, Nat.eqb_refl. reflexivity.
Qed.

(** Without a usable probability, and with at most one qualifying vector,
    there is no series. *)
Lemma no_probability_no_series
  (g : Graph) (boundaries : list Z) (pairing : string * string) :
  (List.length (qualifying g boundaries) <= 1)%nat ->
  truthy (get_probability_of_breach g (fst pairing) (snd pairing)) = false ->
  get_incident_frequency_probabilities g boundaries pairing = Return None.
Proof.
  intros Hfew Hp. unfold get_incident_frequency_probabilities.
  apply Nat.ltb_ge in Hfew. rewrite Hfew. cbn [bind].
  destruct (get_probability_of_breach g (fst pairing) (snd pairing));
    [rewrite Hp|]; reflexivity.
Qed.

(** What an empty pool leads to. *)
Lemma empty_pool
  (g : Graph) (boundaries : list Z) (pairing : string * string) :
  qualifying g boundaries = [] ->
  get_incident_frequency_probabilities g boundaries pairing
  = if truthy (get_probability_of_breach g (fst pairing) (snd pairing))
    then Raise IndexError
    else Return None.
Proof.
  intros Hq.
  destruct (truthy (get_probability_of_breach g (fst pairing) (snd pairing)))
    eqn:Hp.
  - unfold get_incident_frequency_probabilities. rewrite Hq.
    cbn [List.length Nat.ltb Nat.leb bind].
    destruct (get_probability_of_breach g (fst pairing) (snd pairing));
      [rewrite Hp; reflexivity | discriminate].
  - apply no_probability_no_series; [rewrite Hq; cbn; lia | exact Hp].
Qed.

(** X3: with no qualifying base vector in the pool, the resolver raises
    [IndexError] when a non-zero breach probability is resolved for the
    pairing (it indexes the empty list), and returns [None] when the
    probability is absent or zero. *)
Theorem empty_pool_outcome
  (g : Graph) (boundaries : list Z) (pairing : string * string) :
  qualifying g boundaries = [] ->
  get_incident_frequency_probabilities g boundaries pairing
  = if truthy (get_probability_of_breach g (fst pairing) (snd pairing))
    then Raise IndexError
    else Return None.
Proof.
  apply empty_pool.
Qed.

(** An instance: an industry with probability 50 and an empty pool. *)
Lemma empty_pool_outcome_witness :
  get_incident_frequency_probabilities (with_base 50 []) three_boundaries
                                       ("micro", "C")
  = Raise IndexError.
Proof.
  apply (@empty_pool_outcome (with_base 50 []) three_boundaries ("micro", "C")).
  reflexivity.
Defined.

(** Where a returned series comes from. *)
Lemma series_origin
  (g : Graph) (boundaries : list Z) (size industry : string) (v : list Q) :
  get_incident_frequency_probabilities g boundaries (size, industry)
  = Return (Some v) ->
  exists qs p,
    qualifying g boundaries = [qs]
    /\ get_probability_of_breach g size industry = Some p
    /\ ~ p == 0
    /\ v = (100 - p) / 100 :: map (fun q => (p * q) / 100) qs.
Proof.
  intros E.
  destruct (qualifying g boundaries) as [|qs [|qs' rest]] eqn:Hq.
  - rewrite (@empty_pool g boundaries (size, industry) Hq) in E.
    destruct (truthy _); discriminate.
  - destruct (get_probability_of_breach g size industry) as [p|] eqn:Hp.
    + destruct (truthy (Some p)) eqn:Ht.
      * apply ResolverFacts.truthy_Some in Ht.
        rewrite (series_of_one_vector g boundaries size industry Hq Hp Ht) in E.
        inversion E; subst. exists qs, p. repeat split; assumption.
      * rewrite no_probability_no_series in E; try discriminate.
        -- rewrite Hq. cbn. lia.
        -- cbn [fst snd]. rewrite Hp. exact Ht.
    + rewrite no_probability_no_series in E; try discriminate.
      * rewrite Hq. cbn. lia.
      * cbn [fst snd]. rewrite Hp. reflexivity.
  - rewrite ResolverFacts.several_vectors_raise in E; [discriminate|].
    rewrite Hq. cbn. lia.
Qed.

(** X4: the resolver returns a vector only in one situation: exactly one
    base vector of the pool qualifies and the breach probability resolved
    for the pairing is not zero; the vector is then the survival series of
    that base vector. *)
Theorem series_only_from_one_vector
  (g : Graph) (boundaries : list Z) (size industry : string) (v : list Q) :
  get_incident_frequency_probabilities g boundaries (size, industry)
  = Return (Some v) ->
  exists qs p,
    qualifying g boundaries = [qs]
    /\ get_probability_of_breach g size industry = Some p
    /\ ~ p == 0
    /\ v = (100 - p) / 100 :: map (fun q => (p * q) / 100) qs.
Proof.
  apply series_origin.
Qed.

(** An instance: the series [0.5, 0.35, 0.15] comes from the single vector
    [0.7, 0.3] and the probability 50. *)
Lemma series_only_from_one_vector_witness :
  exists qs p,
    qualifying (with_base 50 [[7 # 10; 3 # 10]]) three_boundaries = [qs]
    /\ get_probability_of_breach (with_base 50 [[7 # 10; 3 # 10]]) "micro" "C"
       = Some p
    /\ ~ p == 0
    /\ [(100 - 50) / 100; (50 * (7 # 10)) / 100; (50 * (3 # 10)) / 100]
       = (100 - p) / 100 :: map (fun q => (p * q) / 100) qs.
Proof.
  apply (@series_only_from_one_vector
           (with_base 50 [[7 # 10; 3 # 10]]) three_boundaries "micro" "C").
  reflexivity.
Defined.

(** ** The series is a probability vector *)

Lemma fold_sum_total (xs : list Q) (acc : Q) :
  fold_left Qplus xs acc == acc + fold_right Qplus 0 xs.
Proof.
  revert acc. induction xs as [|x xs IH]; intros acc; cbn.
  - ring.
  - rewrite IH. ring.
Qed.

Lemma total_scaled (p : Q) (qs : list Q) :
  fold_right Qplus 0 (map (fun q => (p * q) / 100) qs)
  == p / 100 * fold_right Qplus 0 qs.
Proof.
  induction qs as [|q qs IH]; cbn.
  - field.
  - rewrite IH. field.
Qed.

(** X5: when the single qualifying base vector is a probability vector
    (no negative entry, total 1) and the resolved breach probability is in
    (0, 100], the returned series is one too: no entry is negative and the
    entries add up to 1. *)
Theorem series_is_probability_vector
  (g : Graph) (boundaries : list Z) (size industry : string)
  (p : Q) (qs : list Q) :
  qualifying g boundaries = [qs] ->
  get_probability_of_breach g size industry = Some p ->
  0 < p <= 100 ->
  Forall (fun q => 0 <= q) qs ->
  sum qs == 1 ->
  exists v,
    get_incident_frequency_probabilities g boundaries (size, industry)
    = Return (Some v)
    /\ Forall (fun x => 0 <= x) v
    /\ sum v == 1.
Proof.
  intros Hq Hp [Hpos Hmax] Hqs Htotal.
  eexists. split; [|split].
  - apply series_of_one_vector; [exact Hq | exact Hp |].
    intros H0. rewrite H0 in Hpos. discriminate.
  - constructor.
    + apply Qle_shift_div_l; [reflexivity | Lqa.lra].
    + apply Forall_map. eapply Forall_impl; [|exact Hqs]. cbn.
      intros q Hq0. apply Qle_shift_div_l; [reflexivity|].
      rewrite Qmult_0_l. apply Qmult_le_0_compat; Lqa.lra.
  - unfold sum in *. rewrite fold_sum_total in Htotal |- *.
    cbn [fold_right]. rewrite total_scaled.
    assert (Ht : fold_right Qplus 0 qs == 1) by Lqa.lra.
    rewrite Ht. field.
Qed.

(** An instance: probability 50 and the base vector [0.7, 0.3]. *)
Lemma series_is_probability_vector_witness :
  exists v,
    get_incident_frequency_probabilities
      (with_base 50 [[7 # 10; 3 # 10]]) three_boundaries ("micro", "C")
    = Return (Some v)
    /\ Forall (fun x => 0 <= x) v
    /\ sum v == 1.
Proof.
  apply (@series_is_probability_vector
           (with_base 50 [[7 # 10; 3 # 10]]) three_boundaries "micro" "C"
           50 [7 # 10; 3 # 10]).
  - reflexivity.
  - reflexivity.
  - split; [reflexivity | discriminate].
  - repeat constructor; discriminate.
  - reflexivity.
Defined.

(** ** Evidence that does not bear on a resolution *)

Lemma found_node_is_named (g : Graph) (label : NodeLabel) (name node : string) :
  _get_node g label name = Some node -> node = name.
Proof.
  unfold _get_node. intros H. apply find_some in H. destruct H as [_ H].
  apply String.eqb_eq in H. symmetry. exact H.
Qed.

Lemma RelType_eqb_eq (x y : RelType) : RelType_eqb x y = true -> x = y.
Proof. destruct x, y; cbn; congruence. Qed.

(** The raw values read for a node through relationships of one type do
    not change when a relationship is added that is of another type, ends
    elsewhere, or starts at a node of another label. *)
Lemma raw_values_unchanged
  (values : list Relationship -> list Q) (wanted : Node -> Prop)
  (g : Graph) (rel : Relationship) (node : string) (t : RelType) :
  (forall r rs, values (r :: rs)
                = (values [r] ++ values rs)%list) ->
  (forall r, ~ wanted (start_node r) -> values [r] = []) ->
  ~ (wanted (start_node rel) /\ r_type rel = t /\ end_node rel = node) ->
  values (match_ (add_relationship rel g) node t) = values (match_ g node t).
Proof.
  intros Hcons Hlabel Hnot. unfold match_. cbn [relationships add_relationship filter].
  destruct (RelType_eqb (r_type rel) t && String.eqb (end_node rel) node) eqn:E;
    [|reflexivity].
  apply andb_true_iff in E. destruct E as [Et En].
  apply RelType_eqb_eq in Et. apply String.eqb_eq in En.
  rewrite Hcons, Hlabel; [reflexivity|]. tauto.
Qed.

(** X18: a relationship added to the store changes the breach
    probability resolved for a pairing only if it attaches a breach
    probability to that pairing's size or industry, and changes the
    resolved cost averages only if it attaches cost averages to them:
    evidence of the other kind, or for other sizes and industries, has no
    effect. *)
Theorem unrelated_evidence_has_no_effect
  (g : Graph) (rel : Relationship) (size industry : string) :
  (~ (is_probability (start_node rel) /\ attached_to rel size industry) ->
   get_probability_of_breach (add_relationship rel g) size industry
   = get_probability_of_breach g size industry)
  /\ (~ (is_cost_averages (start_node rel) /\ attached_to rel size industry) ->
      get_incident_cost_averages (add_relationship rel g) (size, industry)
      = get_incident_cost_averages g (size, industry)).
Proof.
  split; intros Hnot.
  - rewrite !ResolverFacts.get_probability_of_breach_sides.
    unfold size_probability, industry_probability.
    change (_get_node (add_relationship rel g)) with (_get_node g).
    f_equal.
    + destruct (_get_node g SizeLabel size) as [node|] eqn:En; [|reflexivity].
      apply found_node_is_named in En. subst node. f_equal.
      apply (@raw_values_unchanged probabilities_of is_probability);
        [intros; unfold probabilities_of; cbn [flat_map]; rewrite app_nil_r; reflexivity | | unfold attached_to in Hnot; tauto].
      intros r Hr. unfold probabilities_of. cbn.
      destruct (start_node r); [contradiction Hr; exact I | reflexivity].
    + destruct (_get_node g IndustryLabel industry) as [node|] eqn:En;
        [|reflexivity].
      apply found_node_is_named in En. subst node. f_equal.
      apply (@raw_values_unchanged probabilities_of is_probability);
        [intros; unfold probabilities_of; cbn [flat_map]; rewrite app_nil_r; reflexivity | | unfold attached_to in Hnot; tauto].
      intros r Hr. unfold probabilities_of. cbn.
      destruct (start_node r); [contradiction Hr; exact I | reflexivity].
  - rewrite !ResolverFacts.get_incident_cost_averages_sides.
    change (_get_node (add_relationship rel g)) with (_get_node g).
    assert (Hm : forall node t,
               ~ (is_cost_averages (start_node rel)
                  /\ r_type rel = t /\ end_node rel = node) ->
               means_of (match_ (add_relationship rel g) node t)
               = means_of (match_ g node t)
               /\ medians_of (match_ (add_relationship rel g) node t)
                  = medians_of (match_ g node t)).
    { intros node t H. split.
      - apply (@raw_values_unchanged means_of is_cost_averages);
          [intros; unfold means_of; cbn [flat_map]; rewrite app_nil_r; reflexivity | | exact H].
        intros r Hr. unfold means_of. cbn.
        destruct (start_node r); [reflexivity | contradiction Hr; exact I].
      - apply (@raw_values_unchanged medians_of is_cost_averages);
          [intros; unfold medians_of; cbn [flat_map]; rewrite app_nil_r; reflexivity | | exact H].
        intros r Hr. unfold medians_of. cbn.
        destruct (start_node r); [reflexivity | contradiction Hr; exact I]. }
    assert (Hs : size_mean (add_relationship rel g) size = size_mean g size
                 /\ size_median (add_relationship rel g) size = size_median g size).
    { unfold size_mean, size_median.
      change (_get_node (add_relationship rel g)) with (_get_node g).
      destruct (_get_node g SizeLabel size) as [node|] eqn:En;
        [|split; reflexivity].
      apply found_node_is_named in En. subst node.
      destruct (Hm size FOR_SIZE) as [-> ->];
        [unfold attached_to in Hnot; tauto | split; reflexivity]. }
    assert (Hi : industry_mean (add_relationship rel g) industry
                 = industry_mean g industry
                 /\ industry_median (add_relationship rel g) industry
                    = industry_median g industry).
    { unfold industry_mean, industry_median.
      change (_get_node (add_relationship rel g)) with (_get_node g).
      destruct (_get_node g IndustryLabel industry) as [node|] eqn:En;
        [|split; reflexivity].
      apply found_node_is_named in En. subst node.
      destruct (Hm industry FOR_INDUSTRY) as [-> ->];
        [unfold attached_to in Hnot; tauto | split; reflexivity]. }
    destruct Hs as [-> ->], Hi as [-> ->]. reflexivity.
Qed.

(** An instance: cost averages attached to the size do not change the
    breach probability, and a breach probability attached to another size
    does not change the cost averages. *)
Lemma unrelated_evidence_has_no_effect_witness :
  get_probability_of_breach
    (add_relationship (evidence FOR_SIZE (IncidentCostAverages 1000 800) "micro")
                      (two_sided 40 60)) "micro" "C"
  = get_probability_of_breach (two_sided 40 60) "micro" "C"
  /\ get_incident_cost_averages
       (add_relationship (evidence FOR_SIZE (IncidentProbability 10) "small")
                         (two_sided_costs 1000 800 3000 1200)) ("micro", "C")
     = get_incident_cost_averages (two_sided_costs 1000 800 3000 1200)
                                  ("micro", "C").
Proof.
  split.
  - apply (proj1 (unrelated_evidence_has_no_effect
                    (two_sided 40 60)
                    (evidence FOR_SIZE (IncidentCostAverages 1000 800) "micro")
                    "micro" "C")).
    intros [H _]. exact H.
  - apply (proj2 (unrelated_evidence_has_no_effect
                    (two_sided_costs 1000 800 3000 1200)
                    (evidence FOR_SIZE (IncidentProbability 10) "small")
                    "micro" "C")).
    intros [H _]. exact H.
Defined.

End ResolverProperties.

(* ================================================================== *)
(** * Further properties of the stored distributions *)
(* ================================================================== *)

Module LookupProperties.

Import RegenerateDistributions Examples Vocabulary.
Local Open Scope Q_scope.
Local Open Scope string_scope.

Lemma universal_is_universal : String.eqb All All && String.eqb All All = true.
Proof. reflexivity. Qed.

(** The private getters never answer [(None, None)] for the universal
    segment, and never answer [None]. *)
Lemma universal_frequency_answer (g : Graph) :
  (exists d, _get_frequency_distribution g All All = Return (DDict d))
  \/ (exists e, _get_frequency_distribution g All All = Raise e).
Proof.
  unfold _get_frequency_distribution. rewrite universal_is_universal.
  destruct (_ =? 0)%nat; [|destruct (_ <? _)%nat]; eauto.
Qed.

Lemma universal_costs_answer (g : Graph) :
  (exists d, _get_costs_distribution g All All = Return (DDict d))
  \/ (exists e, _get_costs_distribution g All All = Raise e).
Proof.
  unfold _get_costs_distribution. rewrite universal_is_universal.
  destruct (_ =? 0)%nat; [|destruct (_ <? _)%nat]; eauto.
Qed.

(** For the universal segment the public getters hand on the private
    getters' answer. *)
Lemma universal_frequency_public (g : Graph) :
  get_incident_frequency_distribution g (All, All)
  = _get_frequency_distribution g All All.
Proof.
  unfold get_incident_frequency_distribution. cbn [fst snd].
  destruct (universal_frequency_answer g) as [[d ->]|[e ->]];
    destruct (_get_node g SizeLabel All), (_get_node g IndustryLabel All);
    reflexivity.
Qed.

Lemma universal_costs_public (g : Graph) :
  get_incident_costs_distribution g (All, All)
  = _get_costs_distribution g All All.
Proof.
  unfold get_incident_costs_distribution. cbn [fst snd].
  destruct (universal_costs_answer g) as [[d ->]|[e ->]];
    destruct (_get_node g SizeLabel All), (_get_node g IndustryLabel All);
    reflexivity.
Qed.

(** X6: for a pairing whose size and industry are both unknown to the
    store, the public getters answer exactly as they do for the universal
    (All, All) segment: the same distribution, or the same exception. *)
Theorem unknown_segment_falls_back_to_universal
  (g : Graph) (size industry : string) :
  _get_node g SizeLabel size = None ->
  _get_node g IndustryLabel industry = None ->
  get_incident_frequency_distribution g (size, industry)
  = get_incident_frequency_distribution g (All, All)
  /\ get_incident_costs_distribution g (size, industry)
     = get_incident_costs_distribution g (All, All).
Proof.
  intros Hs Hi. rewrite universal_frequency_public, universal_costs_public.
  unfold get_incident_frequency_distribution, get_incident_costs_distribution.
  cbn [fst snd]. rewrite Hs, Hi. split; reflexivity.
Qed.

(** An instance: (nano, Z) on a store that knows neither. *)
Lemma unknown_segment_falls_back_to_universal_witness :
  get_incident_frequency_distribution universal_only ("nano", "Z")
  = get_incident_frequency_distribution universal_only (All, All)
  /\ get_incident_costs_distribution universal_only ("nano", "Z")
     = get_incident_costs_distribution universal_only (All, All).
Proof.
  apply (@unknown_segment_falls_back_to_universal universal_only "nano" "Z");
    reflexivity.
Defined.

(** X7: when exactly one distribution node is stored for a pairing, the
    private getters return its parameters: the costs getter returns the
    stored mean and standard deviation themselves, the frequency getter
    returns numbers equal to the stored [a] and [b] (it always goes
    through the averaging branch). *)
Theorem single_stored_distribution_is_returned
  (g : Graph) (size industry : string) :
  (forall node, costs_nodes g size industry = [node] ->
     _get_costs_distribution g size industry
     = Return (DDict {| dist_mean := cn_mean node;
                        dist_stddev := cn_stddev node |}))
  /\ (forall node, frequency_nodes g size industry = [node] ->
        exists d,
          _get_frequency_distribution g size industry = Return (DDict d)
          /\ dist_a d == fn_a node /\ dist_b d == fn_b node).
Proof.
  split; intros node E.
  - unfold _get_costs_distribution. rewrite E. reflexivity.
  - unfold _get_frequency_distribution. rewrite E.
    cbn [List.length Nat.eqb Nat.ltb Nat.leb map].
    eexists. split; [reflexivity|]. cbn [dist_a dist_b].
    unfold sum, len. cbn [fold_left List.length].
    split; field.
Qed.

(** An instance: the universal distributions of a store. *)
Lemma single_stored_distribution_is_returned_witness :
  _get_costs_distribution universal_only All All
  = Return (DDict {| dist_mean := 1000; dist_stddev := 2 |})
  /\ exists d,
      _get_frequency_distribution universal_only All All = Return (DDict d)
      /\ dist_a d == 1 # 2 /\ dist_b d == 1.
Proof.
  destruct (single_stored_distribution_is_returned universal_only All All)
    as [Hc Hf].
  split.
  - apply (Hc {| cn_size := "All"; cn_industry := "All";
                 cn_mean := 1000; cn_stddev := 2 |}). reflexivity.
  - apply (Hf {| fn_size := "All"; fn_industry := "All";
                 fn_a := 1 # 2; fn_b := 1 |}). reflexivity.
Defined.

(** X8: the public getters never return [None] nor the tuple
    [(None, None)]: whatever they return is a dict. *)
Theorem public_getters_return_dicts (g : Graph) (pairing : string * string) :
  (forall dist, get_incident_frequency_distribution g pairing = Return dist ->
                exists d, dist = DDict d)
  /\ (forall dist, get_incident_costs_distribution g pairing = Return dist ->
                   exists d, dist = DDict d).
Proof.
  split; intros dist E.
  - destruct (SimulationFacts.frequency_distribution_is_dict_or_raises g pairing)
      as [[d Hd]|[e He]]; rewrite E in *; [|discriminate].
    inversion Hd. eauto.
  - destruct (SimulationFacts.costs_distribution_is_dict_or_raises g pairing)
      as [[d Hd]|[e He]]; rewrite E in *; [|discriminate].
    inversion Hd. eauto.
Qed.

(** An instance: the universal frequency distribution. *)
Lemma public_getters_return_dicts_witness :
  exists d, get_incident_frequency_distribution universal_only (All, All)
            = Return (DDict d).
Proof.
  destruct (proj1 (public_getters_return_dicts universal_only (All, All))
                  (DDict {| dist_a := Py.sum [1 # 2] / len [1 # 2];
                            dist_b := Py.sum [1] / len [1] |}) eq_refl)
    as [d E].
  exists d. rewrite <- E. reflexivity.
Defined.

(** X9: for a pairing other than (All, All) that has no stored
    distribution, while its size or its industry is known to the store,
    both public getters raise [TypeError]. *)
Theorem known_segment_without_distribution_raises
  (g : Graph) (size industry : string) :
  _get_node g SizeLabel size <> None \/ _get_node g IndustryLabel industry <> None ->
  (size, industry) <> (All, All) ->
  (frequency_nodes g size industry = [] ->
   get_incident_frequency_distribution g (size, industry) = Raise TypeError)
  /\ (costs_nodes g size industry = [] ->
      get_incident_costs_distribution g (size, industry) = Raise TypeError).
Proof.
  intros Hknown Hnot. split; intros E.
  - unfold get_incident_frequency_distribution. cbn [fst snd].
    rewrite (SimulationFacts.no_frequency_nodes _ _ _ E),
      (SimulationFacts.not_universal Hnot).
    destruct (_get_node g SizeLabel size),
      (_get_node g IndustryLabel industry); try reflexivity.
    destruct Hknown as [H|H]; contradiction H; reflexivity.
  - unfold get_incident_costs_distribution. cbn [fst snd].
    rewrite (SimulationFacts.no_costs_nodes _ _ _ E),
      (SimulationFacts.not_universal Hnot).
    destruct (_get_node g SizeLabel size),
      (_get_node g IndustryLabel industry); try reflexivity.
    destruct Hknown as [H|H]; contradiction H; reflexivity.
Qed.

(** An instance: (micro, C) on a store with universal distributions only. *)
Lemma known_segment_without_distribution_raises_witness :
  get_incident_frequency_distribution universal_only ("micro", "C")
  = Raise TypeError
  /\ get_incident_costs_distribution universal_only ("micro", "C")
     = Raise TypeError.
Proof.
  destruct (@known_segment_without_distribution_raises
              universal_only "micro" "C") as [Hf Hc].
  - left. discriminate.
  - discriminate.
  - split; [apply Hf | apply Hc]; reflexivity.
Defined.

(** X10: deleting the distributions leaves every evidence resolution as
    it was, and afterwards both public getters raise for every pairing
    until new distributions are stored. *)
Theorem delete_distributions_effect (g : Graph) :
  (forall size industry,
     get_probability_of_breach (delete_distributions g) size industry
     = get_probability_of_breach g size industry)
  /\ (forall pairing,
        get_incident_cost_averages (delete_distributions g) pairing
        = get_incident_cost_averages g pairing)
  /\ (forall boundaries pairing,
        get_incident_frequency_probabilities (delete_distributions g)
                                             boundaries pairing
        = get_incident_frequency_probabilities g boundaries pairing)
  /\ (forall pairing,
        (exists e, get_incident_frequency_distribution (delete_distributions g)
                                                       pairing = Raise e)
        /\ (exists e, get_incident_costs_distribution (delete_distributions g)
                                                      pairing = Raise e)).
Proof.
  split; [reflexivity|]. split; [reflexivity|]. split; [reflexivity|].
  intros pairing. split.
  - unfold get_incident_frequency_distribution. cbv zeta.
    assert (Hd : forall s i,
               _get_frequency_distribution (delete_distributions g) s i
               = if String.eqb s All && String.eqb i All
                 then Raise (Exception "No fallback node found!")
                 else Return DNonePair)
      by (intros; apply SimulationFacts.no_frequency_nodes; reflexivity).
    rewrite !Hd, universal_is_universal.
    destruct (_get_node (delete_distributions g) SizeLabel (fst pairing)),
      (_get_node (delete_distributions g) IndustryLabel (snd pairing));
      try destruct (_ && _); cbn; eauto.
  - unfold get_incident_costs_distribution. cbv zeta.
    assert (Hd : forall s i,
               _get_costs_distribution (delete_distributions g) s i
               = if String.eqb s All && String.eqb i All
                 then Raise (Exception "No fallback node found!")
                 else Return DNonePair)
      by (intros; apply SimulationFacts.no_costs_nodes; reflexivity).
    rewrite !Hd, universal_is_universal.
    destruct (_get_node (delete_distributions g) SizeLabel (fst pairing)),
      (_get_node (delete_distributions g) IndustryLabel (snd pairing));
      try destruct (_ && _); cbn; eauto.
Qed.

End LookupProperties.

(* ================================================================== *)
(** * Further properties of regeneration *)
(* ================================================================== *)

Module RegenerationProperties.

Import RegenerateDistributions Examples Vocabulary.
Local Open Scope string_scope.

(** Each fitter reports 0 and creates nothing, or reports 1 and creates
    one node of its kind for the pairing. *)
Lemma frequency_fitter_outcome
  (g : Graph) (pairing : string * string) (n : nat) (cs : list Created) :
  _generate_new_incident_frequency_distribution g pairing = Return (n, cs) ->
  (n = 0%nat /\ cs = [])
  \/ (n = 1%nat /\ exists a b, cs = [NewFrequencyDistribution pairing a b]).
Proof.
  unfold _generate_new_incident_frequency_distribution,
    create_incident_frequency_distribution_node.
  destruct (get_incident_frequency_probabilities _ _ _) as [[v|]|e];
    cbn [bind]; try discriminate.
  - destruct (_get_node g SizeLabel (fst pairing)),
      (_get_node g IndustryLabel (snd pairing));
      cbn [bind]; intros E; inversion E; subst; eauto.
  - intros E; inversion E; subst; eauto.
Qed.

Lemma costs_fitter_outcome
  (g : Graph) (pairing : string * string) (n : nat) (cs : list Created) :
  _generate_new_incident_costs_distribution g pairing = Return (n, cs) ->
  (n = 0%nat /\ cs = [])
  \/ (n = 1%nat /\ exists m s, cs = [NewCostsDistribution pairing m s]).
Proof.
  unfold _generate_new_incident_costs_distribution,
    create_incident_costs_distribution_node.
  destruct (get_incident_cost_averages g pairing) as [[[m|] [d|]]|];
    cbn [bind]; try discriminate;
    try (intros E; inversion E; subst; eauto; fail).
  destruct (_get_node g SizeLabel (fst pairing)),
    (_get_node g IndustryLabel (snd pairing));
    cbn [bind]; intros E; inversion E; subst; eauto.
Qed.

Lemma frequency_count_app (l1 l2 : list Created) :
  frequency_count (l1 ++ l2) = (frequency_count l1 + frequency_count l2)%nat.
Proof.
  unfold frequency_count. rewrite filter_app, length_app. reflexivity.
Qed.

Lemma costs_count_app (l1 l2 : list Created) :
  costs_count (l1 ++ l2) = (costs_count l1 + costs_count l2)%nat.
Proof.
  unfold costs_count. rewrite filter_app, length_app. reflexivity.
Qed.

(** The loop keeps the tallies equal to the numbers of nodes created so
    far, creates nodes for the pairs it visits only, and adds at most one
    to each tally per pair. *)
Lemma loop_invariant (g : Graph) (pairs : list (string * string)) :
  forall (fi ci : nat) (created : list Created) (fi' ci' : nat)
         (created' : list Created) (visited : list (string * string)),
    generate_for_pairs g pairs fi ci created = Return (fi', ci', created') ->
    fi = frequency_count created -> ci = costs_count created ->
    Forall (fun c => In (pairing_of c) visited) created ->
    fi' = frequency_count created' /\ ci' = costs_count created'
    /\ Forall (fun c => In (pairing_of c) (visited ++ pairs)%list) created'
    /\ (fi' <= fi + List.length pairs)%nat
    /\ (ci' <= ci + List.length pairs)%nat.
Proof.
  induction pairs as [|p pairs IH]; intros fi ci created fi' ci' created' visited.
  - cbn. intros E Hf Hc Hv. inversion E; subst. rewrite app_nil_r.
    repeat split; try assumption; lia.
  - cbn [generate_for_pairs].
    destruct (_generate_new_incident_frequency_distribution g p)
      as [[nf cf]|e] eqn:Ef; cbn [bind]; [|discriminate].
    destruct (_generate_new_incident_costs_distribution g p)
      as [[nc cc]|e] eqn:Ec; cbn [bind fst snd]; [|discriminate].
    intros E Hf Hc Hv.
    apply frequency_fitter_outcome in Ef. apply costs_fitter_outcome in Ec.
    apply (IH _ _ _ _ _ _ (visited ++ [p])%list) in E.
    + destruct E as (E1 & E2 & E3 & E4 & E5).
      rewrite <- app_assoc in E3. cbn [app] in E3. cbn [List.length].
      repeat split; try assumption.
      * destruct Ef as [[-> _]|[-> _]]; lia.
      * destruct Ec as [[-> _]|[-> _]]; lia.
    + rewrite !frequency_count_app, <- Hf.
      destruct Ef as [[-> ->]|[-> (a & b & ->)]],
          Ec as [[-> ->]|[-> (m & s & ->)]]; cbn; lia.
    + rewrite !costs_count_app, <- Hc.
      destruct Ef as [[-> ->]|[-> (a & b & ->)]],
          Ec as [[-> ->]|[-> (m & s & ->)]]; cbn; lia.
    + assert (Hp : In p (visited ++ [p])%list) by (apply in_or_app; right; left; reflexivity).
      repeat (apply Forall_app; split).
      * eapply Forall_impl; [|exact Hv]. cbn. intros c Hc'.
        apply in_or_app. left. exact Hc'.
      * destruct Ef as [[_ ->]|[_ (a & b & ->)]]; repeat constructor; exact Hp.
      * destruct Ec as [[_ ->]|[_ (m & s & ->)]]; repeat constructor; exact Hp.
Qed.

(** X11: when a regeneration run completes, the two tallies it returns
    are the numbers of frequency and of costs distributions it created,
    neither exceeds the number of enumerated (size, industry) pairs, and
    every node created is for an enumerated size and an enumerated
    industry. *)
Theorem regeneration_tallies
  (g : Graph) (pairing : option string * option string)
  (incidents_dists costs_dists : nat) (created : list Created) :
  _generate_new_distributions g pairing
  = Return (incidents_dists, costs_dists, created) ->
  incidents_dists = frequency_count created
  /\ costs_dists = costs_count created
  /\ (incidents_dists
      <= List.length (enumerated_sizes g pairing)
         * List.length (enumerated_industries g pairing))%nat
  /\ (costs_dists
      <= List.length (enumerated_sizes g pairing)
         * List.length (enumerated_industries g pairing))%nat
  /\ Forall (fun c => In (fst (pairing_of c)) (enumerated_sizes g pairing)
                      /\ In (snd (pairing_of c))
                            (enumerated_industries g pairing))
            created.
Proof.
  unfold _generate_new_distributions. intros E.
  apply (@loop_invariant _ _ _ _ _ _ _ _ []) in E;
    [|reflexivity|reflexivity|constructor].
  destruct E as (E1 & E2 & E3 & E4 & E5).
  rewrite length_prod in E4, E5. cbn [app plus] in *.
  repeat split; try assumption.
  eapply Forall_impl; [|exact E3]. cbn. intros c Hc.
  destruct (pairing_of c) as [s i]. apply in_prod_iff in Hc. exact Hc.
Qed.

(** An instance: a run restricted to (micro, C) on a store with cost
    averages for micro creates one costs distribution, for (micro, C). *)
Lemma regeneration_tallies_witness :
  exists created,
    _generate_new_distributions (size_only_costs 1000 1000)
                                (Some "micro", Some "C")
    = Return (0%nat, 1%nat, created)
    /\ costs_count created = 1%nat
    /\ Forall (fun c => In (fst (pairing_of c)) ["micro"]
                        /\ In (snd (pairing_of c)) ["C"]) created.
Proof.
  eexists. split; [reflexivity|].
  destruct (regeneration_tallies
              (size_only_costs 1000 1000) (Some "micro", Some "C") eq_refl)
    as (_ & E2 & _ & _ & E5).
  split; [symmetry; exact E2 | exact E5].
Defined.

(** X19: the regeneration script creates a frequency distribution for a
    pairing only when exactly one stored base vector has one entry less
    than the seven boundaries it passes on (six entries) and the breach
    probability resolved for the pairing is not zero; it then creates
    exactly one node, for that pairing. *)
Theorem frequency_distribution_needs_one_base_vector
  (g : Graph) (size industry : string) (created : list Created) :
  _generate_new_incident_frequency_distribution g (size, industry)
  = Return (1%nat, created) ->
  (exists qs,
      qualifying g (removelast BOUNDARIES_values) = [qs]
      /\ List.length qs = 6%nat)
  /\ (exists p, get_probability_of_breach g size industry = Some p
                /\ ~ (p == 0)%Q)
  /\ (exists a b, created = [NewFrequencyDistribution (size, industry) a b]).
Proof.
  intros E.
  assert (Hv : exists v,
             get_incident_frequency_probabilities
               g (removelast BOUNDARIES_values) (size, industry)
             = Return (Some v)).
  { revert E. unfold _generate_new_incident_frequency_distribution.
    destruct (get_incident_frequency_probabilities _ _ _) as [[v|]|e];
      cbn [bind]; try discriminate. eauto. }
  destruct Hv as [v Hv].
  destruct (ResolverProperties.series_origin _ _ _ _ Hv)
    as (qs & p & Hq & Hp & Hnz & _).
  split; [|split].
  - exists qs. split; [exact Hq|].
    pose proof (@ResolverFacts.qualifying_length
                  g (removelast BOUNDARIES_values) qs) as Hlen.
    rewrite Hq in Hlen. specialize (Hlen (or_introl eq_refl)).
    cbn in Hlen. lia.
  - exists p. split; assumption.
  - apply frequency_fitter_outcome in E.
    destruct E as [[E _]|[_ E]]; [discriminate | exact E].
Qed.

(** An instance: one base vector of six entries and an industry with
    breach probability 50. *)
Lemma frequency_distribution_needs_one_base_vector_witness :
  exists qs,
    qualifying (with_base 50 [[1 # 2; 1 # 4; 1 # 8; 1 # 16; 1 # 32; 1 # 32]])
               (removelast BOUNDARIES_values) = [qs]
    /\ List.length qs = 6%nat.
Proof.
  destruct (_generate_new_incident_frequency_distribution
              (with_base 50 [[1 # 2; 1 # 4; 1 # 8; 1 # 16; 1 # 32; 1 # 32]])
              ("micro", "C")) as [[n created]|e] eqn:E.
  - assert (En : n = 1%nat).
    { revert E. unfold _generate_new_incident_frequency_distribution.
      change (get_incident_frequency_probabilities
                (with_base 50 [[1 # 2; 1 # 4; 1 # 8; 1 # 16; 1 # 32; 1 # 32]])
                (removelast BOUNDARIES_values) ("micro", "C"))
        with (Return (Some [(100 - 50) / 100; (50 * (1 # 2)) / 100;
                            (50 * (1 # 4)) / 100; (50 * (1 # 8)) / 100;
                            (50 * (1 # 16)) / 100; (50 * (1 # 32)) / 100;
                            (50 * (1 # 32)) / 100]%Q)).
      cbn [bind]. intros H. inversion H. reflexivity. }
    subst n.
    exact (proj1 (frequency_distribution_needs_one_base_vector _ _ _ E)).
  - exfalso. revert E. unfold _generate_new_incident_frequency_distribution.
    change (get_incident_frequency_probabilities
              (with_base 50 [[1 # 2; 1 # 4; 1 # 8; 1 # 16; 1 # 32; 1 # 32]])
              (removelast BOUNDARIES_values) ("micro", "C"))
      with (Return (Some [(100 - 50) / 100; (50 * (1 # 2)) / 100;
                          (50 * (1 # 4)) / 100; (50 * (1 # 8)) / 100;
                          (50 * (1 # 16)) / 100; (50 * (1 # 32)) / 100;
                          (50 * (1 # 32)) / 100]%Q)).
    cbn [bind]. discriminate.
Defined.

End RegenerationProperties.

(* ================================================================== *)
(** * Further properties of the simulation *)
(* ================================================================== *)

Module SimulationProperties.

Import MonteCarlo Spec Examples Vocabulary.
Local Open Scope R_scope.
Local Open Scope string_scope.

(** ** Incident counts *)

Lemma Q2R_pos (q : Q) : (0 < q)%Q -> 0 < Q2R q.
Proof.
  intros H. replace 0 with (Q2R 0) by (unfold Q2R; cbn; lra).
  apply Qlt_Rlt. exact H.
Qed.

(** [int] never decreases on non-negative reals. *)
Lemma int_monotone (x y : R) : 0 <= x -> x <= y -> (Np.int x <= Np.int y)%Z.
Proof.
  intros Hx Hxy.
  pose proof (SimulationFacts.int_truncates Hx) as [Hlo _].
  assert (Hy : 0 <= y) by lra.
  pose proof (SimulationFacts.int_truncates Hy) as [_ Hhi].
  apply Z.lt_succ_r. apply lt_IZR. rewrite succ_IZR. lra.
Qed.

(** The count never exceeds the maximum, whatever the distribution and
    the draw. *)
Lemma count_at_most_maximum (incidents_dist : FrequencyDict) (U : R) :
  (_calculate_num_of_incidents incidents_dist U <= MAX_ANNUAL_INCIDENTS)%Z.
Proof.
  unfold _calculate_num_of_incidents.
  destruct (Rle_dec _ _) as [Hle|_]; [|lia].
  unfold Np.int. destruct (Rle_dec 0 _) as [Hpos|Hneg].
  - apply le_IZR. destruct (base_Int_part
      (Q2R (dist_b incidents_dist)
       / Rpower (1 - U) (1 / Q2R (dist_a incidents_dist)))). lra.
  - apply Rnot_le_lt in Hneg.
    assert (0 <= Int_part
                   (- (Q2R (dist_b incidents_dist)
                       / Rpower (1 - U) (1 / Q2R (dist_a incidents_dist)))))%Z.
    { apply Z.lt_succ_r. apply lt_IZR. rewrite succ_IZR.
      destruct (base_Int_part
        (- (Q2R (dist_b incidents_dist)
            / Rpower (1 - U) (1 / Q2R (dist_a incidents_dist))))). lra. }
    unfold MAX_ANNUAL_INCIDENTS. lia.
Qed.

(** The sampled value grows with the draw. *)
Lemma sampled_value_monotone (a b U V : R) :
  0 < a -> 0 < b -> 0 <= U -> U <= V -> V < 1 ->
  b / Rpower (1 - U) (1 / a) <= b / Rpower (1 - V) (1 / a).
Proof.
  intros Ha Hb HU HUV HV.
  assert (He : 0 <= 1 / a).
  { apply Rlt_le. apply Rdiv_lt_0_compat; lra. }
  assert (Hp : Rpower (1 - V) (1 / a) <= Rpower (1 - U) (1 / a)).
  { apply Rle_Rpower_l; [exact He | lra]. }
  assert (HpV : 0 < Rpower (1 - V) (1 / a)) by (unfold Rpower; apply exp_pos).
  assert (HpU : 0 < Rpower (1 - U) (1 / a)) by (unfold Rpower; apply exp_pos).
  unfold Rdiv. apply Rmult_le_compat_l; [lra|].
  apply Rinv_le_contravar; assumption.
Qed.

(** X12: for parameters [a > 0] and [b > 0] the incident count never
    decreases when the uniform draw grows: a larger draw gives at least as
    many incidents. *)
Theorem incident_count_monotone (incidents_dist : FrequencyDict) (U V : R) :
  (0 < dist_a incidents_dist)%Q ->
  (0 < dist_b incidents_dist)%Q ->
  0 <= U -> U <= V -> V < 1 ->
  (_calculate_num_of_incidents incidents_dist U
   <= _calculate_num_of_incidents incidents_dist V)%Z.
Proof.
  intros Ha Hb HU HUV HV. apply Q2R_pos in Ha, Hb.
  pose proof (sampled_value_monotone Ha Hb HU HUV HV) as Hmono.
  pose proof (SimulationFacts.sampled_value_pos (Q2R (dist_a incidents_dist)) U Hb)
    as Hpos.
  pose proof (count_at_most_maximum incidents_dist U) as Hcap.
  unfold _calculate_num_of_incidents in *.
  destruct (Rle_dec (_ / Rpower (1 - V) _) _) as [HleV|HgtV].
  - destruct (Rle_dec (_ / Rpower (1 - U) _) _) as [HleU|HgtU]; [|lra].
    apply int_monotone; lra.
  - exact Hcap.
Qed.

(** An instance: with [a = 1] and [b = 2.7], the draws 0 and 1/2. *)
Lemma incident_count_monotone_witness :
  (_calculate_num_of_incidents {| dist_a := 1; dist_b := 27 # 10 |} 0
   <= _calculate_num_of_incidents {| dist_a := 1; dist_b := 27 # 10 |} (1 / 2))%Z.
Proof.
  apply incident_count_monotone; try reflexivity; lra.
Defined.

(** X13: for [a > 0] and a scale [b] of at least 1, every draw gives at
    least one incident: a year without incidents can only be simulated
    from a distribution with [b < 1]. *)
Theorem no_quiet_year_when_scale_at_least_one
  (incidents_dist : FrequencyDict) (U : R) :
  (0 < dist_a incidents_dist)%Q ->
  (1 <= dist_b incidents_dist)%Q ->
  0 <= U < 1 ->
  (1 <= _calculate_num_of_incidents incidents_dist U)%Z.
Proof.
  intros Ha Hb [HU0 HU1].
  assert (Hb1 : 1 <= Q2R (dist_b incidents_dist)).
  { replace 1 with (Q2R 1) by (unfold Q2R; cbn; lra). apply Qle_Rle. exact Hb. }
  apply Q2R_pos in Ha.
  assert (Hmono : Q2R (dist_b incidents_dist) / Rpower (1 - 0) (1 / Q2R (dist_a incidents_dist))
                  <= Q2R (dist_b incidents_dist)
                     / Rpower (1 - U) (1 / Q2R (dist_a incidents_dist))).
  { apply sampled_value_monotone; lra. }
  replace (1 - 0) with 1 in Hmono by lra.
  unfold Rpower at 1 in Hmono. rewrite ln_1, Rmult_0_r, exp_0, Rdiv_1_r in Hmono.
  unfold _calculate_num_of_incidents.
  destruct (Rle_dec _ _) as [Hle|_]; [|unfold MAX_ANNUAL_INCIDENTS; lia].
  match goal with |- (1 <= Np.int ?x)%Z =>
    assert (Hx : 0 <= x) by lra;
    destruct (SimulationFacts.int_truncates Hx) as [_ Hhi]
  end.
  apply Z.lt_pred_le. apply lt_IZR. cbn. lra.
Qed.

(** An instance: [a = 1], [b = 2.7], draw 0. *)
Lemma no_quiet_year_when_scale_at_least_one_witness :
  (1 <= _calculate_num_of_incidents {| dist_a := 1; dist_b := 27 # 10 |} 0)%Z.
Proof.
  apply no_quiet_year_when_scale_at_least_one;
    [reflexivity | discriminate | lra].
Defined.

(** ** Loops in the world *)

Lemma mapW_Forall2 {A B : Type} (f : A -> M B) (P : A -> B -> Prop) :
  (forall x w w' y, f x w = (w', Return y) -> P x y) ->
  forall l w w' ys, mapW f l w = (w', Return ys) -> Forall2 P l ys.
Proof.
  intros Hf. induction l as [|x l IH]; intros w w' ys; cbn [mapW].
  - unfold ret. intros E. inversion E. constructor.
  - unfold bindM at 1. destruct (f x w) as [w1 [y|e]] eqn:Ef; [|discriminate].
    unfold bindM at 1. destruct (mapW f l w1) as [w2 [ys'|e]] eqn:El;
      [|discriminate].
    unfold ret. intros E. inversion E; subst.
    constructor; [eapply Hf; eassumption | eapply IH; eassumption].
Qed.

(** A quantity that every successful step increases by [k] has increased
    by [k] times the number of steps after the loop. *)
Lemma mapW_counts {A B : Type} (f : A -> M B) (m : World -> nat) (k : nat) :
  (forall x w w' y, f x w = (w', Return y) -> m w' = (m w + k)%nat) ->
  forall l w w' ys, mapW f l w = (w', Return ys) ->
                    m w' = (m w + k * List.length l)%nat.
Proof.
  intros Hf. induction l as [|x l IH]; intros w w' ys; cbn [mapW].
  - unfold ret. intros E. inversion E. cbn. lia.
  - unfold bindM at 1. destruct (f x w) as [w1 [y|e]] eqn:Ef; [|discriminate].
    unfold bindM at 1. destruct (mapW f l w1) as [w2 [ys'|e]] eqn:El;
      [|discriminate].
    unfold ret. intros E. inversion E; subst.
    rewrite (IH _ _ _ El), (Hf _ _ _ _ Ef). cbn [List.length]. lia.
Qed.

(** A component of the world that every successful step keeps is kept by
    the loop. *)
Lemma mapW_keeps {A B T : Type} (f : A -> M B) (proj : World -> T) :
  (forall x w w' y, f x w = (w', Return y) -> proj w' = proj w) ->
  forall l w w' ys, mapW f l w = (w', Return ys) -> proj w' = proj w.
Proof.
  intros Hf. induction l as [|x l IH]; intros w w' ys; cbn [mapW].
  - unfold ret. intros E. inversion E. reflexivity.
  - unfold bindM at 1. destruct (f x w) as [w1 [y|e]] eqn:Ef; [|discriminate].
    unfold bindM at 1. destruct (mapW f l w1) as [w2 [ys'|e]] eqn:El;
      [|discriminate].
    unfold ret. intros E. inversion E; subst.
    rewrite (IH _ _ _ El). eapply Hf. exact Ef.
Qed.

Lemma silent_ret {A : Type} (a : A) : silent (ret a).
Proof. intros w. reflexivity. Qed.

Lemma silent_raise {A : Type} (e : exn) : silent (@raise A e).
Proof. intros w. reflexivity. Qed.

Lemma silent_lift {A : Type} (c : result A) : silent (lift c).
Proof. intros w. reflexivity. Qed.

Lemma silent_bind {A B : Type} (c : M A) (k : A -> M B) :
  silent c -> (forall a, silent (k a)) -> silent (bindM c k).
Proof.
  intros Hc Hk w. unfold bindM. specialize (Hc w).
  destruct (c w) as [w1 [a|e]]; cbn [fst] in *.
  - rewrite Hk. exact Hc.
  - exact Hc.
Qed.

Lemma silent_mapW {A B : Type} (f : A -> M B) (l : list A) :
  (forall x, silent (f x)) -> silent (mapW f l).
Proof.
  intros Hf. induction l as [|x l IH]; cbn [mapW].
  - apply silent_ret.
  - apply silent_bind; [apply Hf|]. intros y.
    apply silent_bind; [exact IH|]. intros ys. apply silent_ret.
Qed.

Lemma silent_never_complains {A : Type} (c : M A) :
  silent c -> never_complains c.
Proof.
  intros H w. exists []. rewrite app_nil_r. split; [apply H | intros []].
Qed.

Lemma print_never_complains (o : Output) :
  o <> NoDataFound -> never_complains (print o).
Proof.
  intros Ho w. exists [o]. split; [reflexivity|].
  intros [E|[]]. apply Ho. exact E.
Qed.

(** Sequencing keeps the property; what follows only has to keep it for
    the values that can actually be returned. *)
Lemma never_complains_bind {A B : Type} (c : M A) (k : A -> M B) :
  never_complains c ->
  (forall w w' a, c w = (w', Return a) ->
                  exists out, stdout (fst (k a w')) = (stdout w' ++ out)%list
                              /\ ~ In NoDataFound out) ->
  never_complains (bindM c k).
Proof.
  intros Hc Hk w. unfold bindM. destruct (Hc w) as (out & E & Hout).
  destruct (c w) as [w1 [a|e]] eqn:Ec; cbn [fst] in *.
  - destruct (Hk w w1 a Ec) as (out' & E' & Hout').
    exists (out ++ out')%list. rewrite E', E, app_assoc. split; [reflexivity|].
    intros Hin. apply in_app_or in Hin. tauto.
  - exists out. split; assumption.
Qed.

Section Runs.

Variable uniform : nat -> R.
Variable lognormvariate : nat -> R -> R -> R.

Lemma silent_np_random_uniform : silent (np_random_uniform uniform).
Proof. intros w. reflexivity. Qed.

Lemma silent_random_lognormvariate (mu sigma : R) :
  silent (random_lognormvariate lognormvariate mu sigma).
Proof. intros w. reflexivity. Qed.

Lemma silent_sum_cost (num_of_incidents : Z) (costs_dist : Dist CostsDict) :
  silent (_calculate_sum_cost_of_incidents lognormvariate num_of_incidents
                                           costs_dist).
Proof.
  unfold _calculate_sum_cost_of_incidents.
  destruct (num_of_incidents =? 0)%Z; [apply silent_ret|].
  apply silent_bind; [apply silent_lift|]. intros d.
  destruct (Qeq_bool (dist_mean d) 0); [apply silent_raise|].
  apply silent_bind; [|intros; apply silent_ret].
  apply silent_mapW. intros _. apply silent_random_lognormvariate.
Qed.

Lemma silent_save_plot (cfg : Config) : silent (_save_plot cfg).
Proof.
  unfold _save_plot. destruct (IMAGES cfg); [|apply silent_ret].
  destruct (OUTPUT_DIR cfg); [apply silent_ret | apply silent_raise].
Qed.

Lemma silent_most_relevant (cfg : Config) (g : Graph) (pairing : string * string) :
  silent (_get_most_relevant_distributions cfg g pairing).
Proof.
  assert (Hfresh : silent (fresh_distributions cfg g pairing)).
  { unfold fresh_distributions.
    apply silent_bind; [apply silent_lift|]. intros fd.
    apply silent_bind; [apply silent_lift|]. intros cd.
    apply silent_bind; [|intros; apply silent_ret].
    destruct (OUTPUT_DIR cfg), fd, cd;
      first [apply silent_ret | intros w; reflexivity]. }
  unfold _get_most_relevant_distributions.
  destruct (FORCE cfg), (OUTPUT_DIR cfg); try exact Hfresh.
  apply silent_bind; [intros w; reflexivity|].
  intros [dists|]; [apply silent_ret | exact Hfresh].
Qed.

(** A simulation writes nothing to standard output. *)
Lemma silent_simulation (cfg : Config) (g : Graph) (pairing : string * string) :
  silent (_run_monte_carlo_simulation uniform lognormvariate cfg g pairing).
Proof.
  unfold _run_monte_carlo_simulation.
  apply silent_bind; [apply silent_most_relevant|]. intros [fd cd].
  destruct fd, cd; try apply silent_ret.
  all: apply silent_bind;
    [apply silent_mapW; intros _;
     apply silent_bind; [apply silent_lift|]; intros ?;
     apply silent_bind; [apply silent_np_random_uniform|]; intros ?;
     apply silent_ret|].
  all: intros nums1; apply silent_bind; [apply silent_save_plot|]; intros _.
  all: apply silent_bind; [apply silent_mapW; intros ?; apply silent_sum_cost|].
  all: intros costs1; apply silent_bind; [apply silent_save_plot|]; intros _.
  all: apply silent_bind; [apply silent_lift|]; intros _.
  all: apply silent_bind; [apply silent_save_plot|]; intros _.
  all: destruct (loss_exceedance_curve costs1) as [xs ys].
  all: apply silent_bind; [intros w; reflexivity|]; intros _.
  all: apply silent_bind; [apply silent_save_plot|]; intros _.
  all: apply silent_ret.
Qed.

(** The report prints two results and raises nothing but
    [ZeroDivisionError]. *)
Lemma report_never_complains (nums : list Z) (costs : list R) :
  never_complains (report nums costs).
Proof.
  unfold report, average.
  apply never_complains_bind.
  { destruct (_ =? 0)%nat; apply silent_never_complains;
      [apply silent_raise | apply silent_ret]. }
  intros w w' avg _.
  assert (H : never_complains
                (bindM (if (List.length costs =? 0)%nat
                        then raise ZeroDivisionError
                        else ret (Np.sum costs / INR (List.length costs)))
                   (fun avg_sum_costs =>
                      bindM (print (PrintInt (Np.int (IZR (Np.int avg) / 100))))
                        (fun _ => print (PrintCost (avg_sum_costs / 100)))))).
  { apply never_complains_bind.
    { destruct (_ =? 0)%nat; apply silent_never_complains;
        [apply silent_raise | apply silent_ret]. }
    intros w1 w1' c _.
    assert (H : never_complains
                  (bindM (print (PrintInt (Np.int (IZR (Np.int avg) / 100))))
                     (fun _ => print (PrintCost (c / 100))))).
    { apply never_complains_bind;
        [apply print_never_complains; discriminate|].
      intros w2 w2' _ _. apply print_never_complains. discriminate. }
    apply H. }
  apply H.
Qed.

(** X14: a forced run of the script never prints "No data found.": for
    every store, requested segment and trial count, whatever is printed
    is an announcement or a result, and the run ends normally or in an
    exception. *)
Theorem forced_run_never_reports_no_data
  (cfg : Config) (g : Graph) (size industry : string) (w : World) :
  FORCE cfg = true ->
  exists out,
    stdout (fst (main uniform lognormvariate cfg g size industry w))
    = (stdout w ++ out)%list
    /\ ~ In NoDataFound out.
Proof.
  intros Hforce. revert w.
  change (never_complains (main uniform lognormvariate cfg g size industry)).
  assert (Hrun : forall pairing (k : option (list Z) * option (list R) -> M unit),
             (forall nums costs, never_complains (k (Some nums, Some costs))) ->
             never_complains
               (bindM (_run_monte_carlo_simulation uniform lognormvariate
                                                   cfg g pairing) k)).
  { intros pairing k Hk. apply never_complains_bind.
    - apply silent_never_complains, silent_simulation.
    - intros w w' r E.
      destruct (SimulationFacts.fresh_simulation_returns_samples_or_raises
                  uniform lognormvariate cfg g pairing w Hforce)
        as [(w1 & nums & costs & E1)|(w1 & e & E1)];
        rewrite E in E1; inversion E1; subst.
      apply Hk. }
  unfold main. apply never_complains_bind.
  - destruct (nonempty size || nonempty industry);
      [|apply silent_never_complains, silent_ret].
    apply never_complains_bind; [apply print_never_complains; discriminate|].
    intros w w' _ _. revert w'.
    change (never_complains
              (bindM (_run_monte_carlo_simulation uniform lognormvariate cfg g
                                                  (size, industry))
                 (fun r => match r with
                           | (Some nums_of_incidents, Some sum_costs) =>
                               report nums_of_incidents sum_costs
                           | _ => print NoDataFound
                           end))).
    apply Hrun. intros nums costs. apply report_never_complains.
  - intros w w' _ _. revert w'.
    change (never_complains
              (bindM (print (RunningSimulationFor All All))
                 (fun _ =>
                    bindM (_run_monte_carlo_simulation uniform lognormvariate
                                                       cfg g (All, All))
                      (fun r => match r with
                                | (Some gen_nums_of_incidents, Some gen_sum_costs) =>
                                    report gen_nums_of_incidents gen_sum_costs
                                | _ => raise TypeError
                                end)))).
    apply never_complains_bind; [apply print_never_complains; discriminate|].
    intros w0 w0' _ _. revert w0'.
    change (never_complains
              (bindM (_run_monte_carlo_simulation uniform lognormvariate
                                                  cfg g (All, All))
                 (fun r => match r with
                           | (Some gen_nums_of_incidents, Some gen_sum_costs) =>
                               report gen_nums_of_incidents gen_sum_costs
                           | _ => raise TypeError
                           end))).
    apply Hrun. intros nums costs. apply report_never_complains.
Qed.

(** What one successful step of each loop does. *)
Lemma count_step (fd : Dist FrequencyDict) (w w' : World) (n : Z) :
  bindM (lift (subscript fd))
    (fun d => bindM (np_random_uniform uniform)
                (fun U => ret (_calculate_num_of_incidents d U))) w
  = (w', Return n) ->
  (n <= MAX_ANNUAL_INCIDENTS)%Z
  /\ np_draws w' = S (np_draws w)
  /\ lec_plots w' = lec_plots w.
Proof.
  destruct fd as [| |d]; cbn; intros E; inversion E; subst.
  repeat split. apply count_at_most_maximum.
Qed.

Lemma cost_step (cd : Dist CostsDict) (n : Z) (w w' : World) (c : R) :
  _calculate_sum_cost_of_incidents lognormvariate n cd w = (w', Return c) ->
  (n = 0%Z -> c = 0)
  /\ np_draws w' = np_draws w
  /\ lec_plots w' = lec_plots w.
Proof.
  unfold _calculate_sum_cost_of_incidents.
  destruct (n =? 0)%Z eqn:En.
  - unfold ret. intros E. inversion E; subst. repeat split.
  - apply Z.eqb_neq in En.
    unfold bindM at 1, lift. destruct (subscript cd) as [d|e]; [|discriminate].
    destruct (Qeq_bool (dist_mean d) 0); [discriminate|].
    unfold bindM at 1.
    match goal with |- context [mapW ?f ?l w] =>
      destruct (mapW f l w) as [w1 [costs|e]] eqn:El end; [|discriminate].
    unfold ret. intros E. inversion E; subst.
    split; [intros H; contradiction|]. split.
    + eapply (mapW_keeps _ np_draws); [|exact El].
      intros x v v' y Ev. inversion Ev. reflexivity.
    + eapply (mapW_keeps _ lec_plots); [|exact El].
      intros x v v' y Ev. inversion Ev. reflexivity.
Qed.

Lemma save_plot_step (cfg : Config) (w w' : World) (u : unit) :
  _save_plot cfg w = (w', Return u) -> w' = w.
Proof.
  unfold _save_plot. destruct (IMAGES cfg), (OUTPUT_DIR cfg); cbn;
    intros E; inversion E; reflexivity.
Qed.

(** What has happened when a sequence has returned. *)
Lemma bindM_returned {A B : Type} (c : M A) (k : A -> M B)
  (w w' : World) (b : B) :
  bindM c k w = (w', Return b) ->
  exists w1 a, c w = (w1, Return a) /\ k a w1 = (w', Return b).
Proof.
  unfold bindM. destruct (c w) as [w1 [a|e]]; [|discriminate].
  intros E. exists w1, a. split; [reflexivity | exact E].
Qed.

Lemma most_relevant_keeps
  (cfg : Config) (g : Graph) (pairing : string * string) (w w' : World)
  (dists : Pickle) :
  _get_most_relevant_distributions cfg g pairing w = (w', Return dists) ->
  np_draws w' = np_draws w /\ lec_plots w' = lec_plots w.
Proof.
  assert (Hfresh : fresh_distributions cfg g pairing w = (w', Return dists) ->
                   np_draws w' = np_draws w /\ lec_plots w' = lec_plots w).
  { unfold fresh_distributions, bindM, lift.
    destruct (get_incident_frequency_distribution g pairing) as [fd|e];
      [|discriminate].
    destruct (get_incident_costs_distribution g pairing) as [cd|e];
      [|discriminate].
    destruct (OUTPUT_DIR cfg), fd, cd; cbn; intros E; inversion E; subst;
      split; reflexivity. }
  unfold _get_most_relevant_distributions.
  destruct (FORCE cfg), (OUTPUT_DIR cfg); try exact Hfresh.
  unfold bindM, pickle_load.
  destruct (option_map _ _); [|exact Hfresh].
  unfold ret. intros E. inversion E; subst. split; reflexivity.
Qed.

(** X15: when a simulation returns its two samples, each has one entry
    per trial, no incident count exceeds the maximum, a year with no
    incident has cost 0, one uniform draw was taken per trial, and the
    loss exceedance curve of the returned costs was plotted last. *)
Theorem simulation_samples
  (cfg : Config) (g : Graph) (pairing : string * string) (w w' : World)
  (nums : list Z) (costs : list R) :
  _run_monte_carlo_simulation uniform lognormvariate cfg g pairing w
  = (w', Return (Some nums, Some costs)) ->
  List.length nums = Z.to_nat (N cfg)
  /\ List.length costs = Z.to_nat (N cfg)
  /\ Forall (fun n => (n <= MAX_ANNUAL_INCIDENTS)%Z) nums
  /\ Forall2 (fun n c => n = 0%Z -> c = 0) nums costs
  /\ np_draws w' = (np_draws w + Z.to_nat (N cfg))%nat
  /\ lec_plots w' = (lec_plots w ++ [loss_exceedance_curve costs])%list.
Proof.
  unfold _run_monte_carlo_simulation. intros E.
  apply bindM_returned in E. destruct E as (w0 & [fd cd] & E0 & E).
  apply most_relevant_keeps in E0. destruct E0 as [Hnp0 Hlec0].
  assert (Hloops :
    bindM
      (mapW (fun _ : nat =>
               bindM (lift (subscript fd))
                 (fun d => bindM (np_random_uniform uniform)
                             (fun U => ret (_calculate_num_of_incidents d U))))
            (range (N cfg)))
      (fun nums_of_incidents =>
         bindM (_save_plot cfg) (fun _ =>
         bindM (mapW (fun n => _calculate_sum_cost_of_incidents
                                 lognormvariate n cd) nums_of_incidents)
           (fun sum_costs =>
              bindM (_save_plot cfg) (fun _ =>
              bindM (lift (density_plot sum_costs)) (fun _ =>
              bindM (_save_plot cfg) (fun _ =>
              let (xs, ys) := loss_exceedance_curve sum_costs in
              bindM (plot_lec xs ys) (fun _ =>
              bindM (_save_plot cfg) (fun _ =>
              ret (Some nums_of_incidents, Some sum_costs))))))))) w0
    = (w', Return (Some nums, Some costs)) ->
    List.length nums = Z.to_nat (N cfg)
    /\ List.length costs = Z.to_nat (N cfg)
    /\ Forall (fun n => (n <= MAX_ANNUAL_INCIDENTS)%Z) nums
    /\ Forall2 (fun n c => n = 0%Z -> c = 0) nums costs
    /\ np_draws w' = (np_draws w + Z.to_nat (N cfg))%nat
    /\ lec_plots w' = (lec_plots w ++ [loss_exceedance_curve costs])%list).
  { clear E. intros E.
    apply bindM_returned in E. destruct E as (w1 & nums' & E1 & E).
    apply bindM_returned in E. destruct E as (w1' & u1 & S1 & E).
    apply save_plot_step in S1. subst w1'.
    apply bindM_returned in E. destruct E as (w2 & costs' & E2 & E).
    apply bindM_returned in E. destruct E as (w2' & u2 & S2 & E).
    apply save_plot_step in S2. subst w2'.
    apply bindM_returned in E. destruct E as (w2' & u3 & D & E).
    unfold lift in D. inversion D; subst w2'. clear D.
    apply bindM_returned in E. destruct E as (w2' & u4 & S3 & E).
    apply save_plot_step in S3. subst w2'.
    destruct (loss_exceedance_curve costs') as [xs ys] eqn:Elec.
    apply bindM_returned in E. destruct E as (w3 & u5 & P & E).
    unfold plot_lec in P. inversion P; subst w3. clear P.
    apply bindM_returned in E. destruct E as (w4 & u6 & S4 & E).
    apply save_plot_step in S4. subst w4.
    unfold ret in E. inversion E; subst. cbn [lec_plots np_draws].
    assert (Hcap : Forall2 (fun (_ : nat) n => (n <= MAX_ANNUAL_INCIDENTS)%Z)
                           (range (N cfg)) nums).
    { eapply (@mapW_Forall2 _ _ _ (fun (_ : nat) n => (n <= MAX_ANNUAL_INCIDENTS)%Z));
        [|exact E1].
      intros x v v' y Ev. apply count_step in Ev. apply Ev. }
    assert (Hdraws : np_draws w1 = (np_draws w0 + 1 * List.length (range (N cfg)))%nat).
    { eapply (@mapW_counts _ _ _ np_draws 1); [|exact E1].
      intros x v v' y Ev. apply count_step in Ev.
      destruct Ev as (_ & -> & _). lia. }
    assert (Hlec1 : lec_plots w1 = lec_plots w0).
    { eapply (@mapW_keeps _ _ _ _ lec_plots); [|exact E1].
      intros x v v' y Ev. apply count_step in Ev. apply Ev. }
    assert (Hzero : Forall2 (fun n c => n = 0%Z -> c = 0) nums costs).
    { eapply (@mapW_Forall2 _ _ _ (fun n c => n = 0%Z -> c = 0)); [|exact E2].
      intros x v v' y Ev. apply cost_step in Ev. apply Ev. }
    assert (Hnp2 : np_draws w2 = np_draws w1).
    { eapply (@mapW_keeps _ _ _ _ np_draws); [|exact E2].
      intros x v v' y Ev. apply cost_step in Ev. apply Ev. }
    assert (Hlec2 : lec_plots w2 = lec_plots w1).
    { eapply (@mapW_keeps _ _ _ _ lec_plots); [|exact E2].
      intros x v v' y Ev. apply cost_step in Ev. apply Ev. }
    pose proof (Forall2_length Hcap) as Hlen1.
    pose proof (Forall2_length Hzero) as Hlen2.
    unfold range in *. rewrite length_seq in *.
    repeat split.
    - symmetry. exact Hlen1.
    - rewrite <- Hlen2. symmetry. exact Hlen1.
    - clear - Hcap. induction Hcap; constructor; assumption.
    - exact Hzero.
    - rewrite Hnp2, Hdraws, Hnp0. lia.
    - rewrite Hlec2, Hlec1, Hlec0, Elec. reflexivity. }
  cbv iota in E. destruct fd, cd; try exact (Hloops E).
  unfold ret in E. discriminate.
Qed.

End Runs.

(** With the universal distribution of [sampling_store] a draw of 0 gives
    a sampled value of 2.7, hence two incidents. *)
Lemma sampling_store_count :
  _calculate_num_of_incidents
    {| dist_a := Py.sum [1%Q] / len [1%Q];
       dist_b := Py.sum [27 # 10] / len [27 # 10] |} 0 = 2%Z.
Proof.
  unfold _calculate_num_of_incidents. cbn [dist_a dist_b].
  assert (E : Q2R (Py.sum [27 # 10] / len [27 # 10])
              / Rpower (1 - 0) (1 / Q2R (Py.sum [1%Q] / len [1%Q])) = 27 / 10).
  { replace (1 - 0) with 1 by lra.
    replace (Q2R (Py.sum [1%Q] / len [1%Q])) with 1 by (unfold Q2R; cbn; lra).
    replace (1 / 1) with 1 by lra.
    rewrite Rpower_1 by lra. unfold Q2R. cbn. lra. }
  rewrite E. unfold MAX_ANNUAL_INCIDENTS.
  destruct (Rle_dec (27 / 10) 8000) as [_|H]; [|exfalso; lra].
  destruct (@SimulationFacts.int_truncates (27 / 10)) as [Hlo Hhi]; [lra|].
  assert (Np.int (27 / 10) < 3)%Z by (apply lt_IZR; lra).
  assert (1 < Np.int (27 / 10))%Z by (apply lt_IZR; lra).
  lia.
Qed.

(** Two incidents take the next two cost draws, whatever was drawn
    before. *)
Lemma sampling_store_cost (w : World) :
  _calculate_sum_cost_of_incidents
    (fun k _ _ => INR (S k)) 2
    (DDict {| dist_mean := 1000; dist_stddev := 2 |}) w
  = ({| files := files w; stdout := stdout w; lec_plots := lec_plots w;
        np_draws := np_draws w; py_draws := S (S (py_draws w)) |},
     Return (0 + INR (S (py_draws w)) + INR (S (S (py_draws w))))).
Proof.
  unfold _calculate_sum_cost_of_incidents.
  change (2 =? 0)%Z with false. cbv iota.
  unfold bindM at 1, lift, subscript.
  change (Qeq_bool
            (dist_mean {| dist_mean := 1000; dist_stddev := 2 |}) 0)
    with false.
  cbv iota zeta. change (range 2) with [0%nat; 1%nat].
  cbn [mapW]. unfold bindM, random_lognormvariate, ret.
  cbn [files stdout lec_plots np_draws py_draws]. reflexivity.
Qed.

(** Two different samples can be plotted as a density. *)
Lemma density_plot_of_two (x y : R) :
  x <> y -> density_plot [x; y] = Return tt.
Proof.
  intros H. unfold density_plot, identical. cbn [forallb].
  destruct (Req_dec_T x y) as [E|_]; [contradiction | reflexivity].
Qed.

(** An instance of X14: one forced trial on a store with universal
    distributions only, requested for (micro, C). *)
Lemma forced_run_never_reports_no_data_witness :
  exists out,
    stdout (fst (main (fun _ => 0) (fun _ _ _ => 0) forced_config
                      universal_only "micro" "C" empty_world))
    = (stdout empty_world ++ out)%list
    /\ ~ In NoDataFound out.
Proof.
  apply forced_run_never_reports_no_data. reflexivity.
Defined.

(** An instance of X15: two forced trials for the universal segment, with
    every uniform draw 0 and the [k]-th cost drawn [k + 1]: both years have
    two incidents, and their costs are [1 + 2] and [3 + 4]. *)
Lemma simulation_samples_witness :
  exists w',
    _run_monte_carlo_simulation (fun _ => 0) (fun k _ _ => INR (S k))
                                two_trials_config sampling_store (All, All)
                                empty_world
    = (w', Return (Some [2%Z; 2%Z], Some [0 + INR 1 + INR 2; 0 + INR 3 + INR 4]))
    /\ List.length [2%Z; 2%Z] = 2%nat
    /\ List.length [0 + INR 1 + INR 2; 0 + INR 3 + INR 4] = 2%nat
    /\ Forall (fun n => (n <= MAX_ANNUAL_INCIDENTS)%Z) [2%Z; 2%Z]
    /\ np_draws w' = 2%nat.
Proof.
  assert (E : exists w',
    _run_monte_carlo_simulation (fun _ => 0) (fun k _ _ => INR (S k))
                                two_trials_config sampling_store (All, All)
                                empty_world
    = (w', Return (Some [2%Z; 2%Z], Some [0 + INR 1 + INR 2; 0 + INR 3 + INR 4]))).
  { unfold _run_monte_carlo_simulation, _get_most_relevant_distributions.
    cbn [FORCE two_trials_config].
    assert (E0 : exists w0,
      fresh_distributions two_trials_config sampling_store (All, All) empty_world
      = (w0, Return (DDict {| dist_a := Py.sum [1%Q] / len [1%Q];
                              dist_b := Py.sum [27 # 10] / len [27 # 10] |},
                     DDict {| dist_mean := 1000; dist_stddev := 2 |}))
      /\ py_draws w0 = 0%nat).
    { eexists. split; reflexivity. }
    destruct E0 as (w0 & E0 & Hpy).
    destruct w0 as [f o l n p]. cbn [py_draws] in Hpy. subst p.
    erewrite SimulationFacts.bindM_Return by exact E0. cbv iota.
    change (range (N two_trials_config)) with [0%nat; 1%nat].
    erewrite SimulationFacts.bindM_Return; cycle 1.
    { cbn [mapW]. unfold bindM, lift, subscript, np_random_uniform, ret.
      cbn [files stdout lec_plots np_draws py_draws].
      rewrite sampling_store_count. reflexivity. }
    erewrite SimulationFacts.bindM_Return by reflexivity.
    erewrite SimulationFacts.bindM_Return; cycle 1.
    { cbn [mapW]. unfold bindM.
      rewrite sampling_store_cost. cbv iota.
      rewrite sampling_store_cost. unfold ret.
      cbn [files stdout lec_plots np_draws py_draws]. reflexivity. }
    erewrite SimulationFacts.bindM_Return by reflexivity.
    erewrite SimulationFacts.bindM_Return; cycle 1.
    { unfold lift. rewrite density_plot_of_two; [reflexivity|].
      cbn [INR]. lra. }
    erewrite SimulationFacts.bindM_Return by reflexivity.
    destruct (loss_exceedance_curve [0 + INR 1 + INR 2; 0 + INR 3 + INR 4])
      as [xs ys].
    eexists. reflexivity. }
  destruct E as [w' E]. exists w'. split; [exact E|].
  destruct (@simulation_samples _ _ _ _ _ _ _ _ _ E)
    as (H1 & H2 & H3 & _ & H5 & _).
  repeat split; assumption.
Defined.

(** ** The cache *)

(** X16: distributions that were resolved freshly while an output
    directory is set are served from the pickle file by the next unforced
    retrieval for the same pairing and directory, without the store being
    consulted: the result is the same whatever the store then holds, and
    the world is left as it is. *)
Theorem cached_distributions_are_served
  (cfg cfg' : Config) (g g' : Graph) (pairing : string * string)
  (dir : string) (w w' : World) (dists : Pickle) :
  OUTPUT_DIR cfg = Some dir ->
  fresh_distributions cfg g pairing w = (w', Return dists) ->
  OUTPUT_DIR cfg' = Some dir ->
  FORCE cfg' = false ->
  _get_most_relevant_distributions cfg' g' pairing w' = (w', Return dists).
Proof.
  intros Hdir Hfresh Hdir' Hforce.
  unfold fresh_distributions, bindM, lift in Hfresh. rewrite Hdir in Hfresh.
  destruct (SimulationFacts.frequency_distribution_is_dict_or_raises g pairing)
    as [[fd Ef]|[e Ef]]; rewrite Ef in Hfresh; [|discriminate].
  destruct (SimulationFacts.costs_distribution_is_dict_or_raises g pairing)
    as [[cd Ec]|[e Ec]]; rewrite Ec in Hfresh; [|discriminate].
  cbn in Hfresh. inversion Hfresh; subst. clear Hfresh.
  unfold _get_most_relevant_distributions. rewrite Hforce, Hdir'.
  unfold bindM, pickle_load. cbn [files find fst snd].
  rewrite String.eqb_refl. reflexivity.
Qed.

(** An instance: the universal distributions are resolved from one store
    and then served to a run on a store that has none. *)
Lemma cached_distributions_are_served_witness :
  exists w' dists,
    fresh_distributions config universal_only (All, All) empty_world
    = (w', Return dists)
    /\ _get_most_relevant_distributions config no_distributions (All, All) w'
       = (w', Return dists).
Proof.
  do 2 eexists. split; [reflexivity|].
  eapply (@cached_distributions_are_served config config universal_only);
    reflexivity.
Defined.

(** ** The histogram and the start of the curve *)

Lemma amin_below (x : R) (xs : list R) (y : R) :
  In y (x :: xs) -> Np.amin x xs <= y.
Proof.
  revert x. induction xs as [|a xs IH]; intros x Hy.
  - destruct Hy as [<-|[]]. cbn. lra.
  - change (Np.amin x (a :: xs)) with (Np.amin (Rmin x a) xs).
    pose proof (SimulationFacts.amin_le (Rmin x a) xs) as Hle.
    pose proof (Rmin_l x a). pose proof (Rmin_r x a).
    destruct Hy as [<-|[<-|Hy]]; try lra.
    apply IH. right. exact Hy.
Qed.

Lemma amax_above (x : R) (xs : list R) (y : R) :
  In y (x :: xs) -> y <= Np.amax x xs.
Proof.
  revert x. induction xs as [|a xs IH]; intros x Hy.
  - destruct Hy as [<-|[]]. cbn. lra.
  - change (Np.amax x (a :: xs)) with (Np.amax (Rmax x a) xs).
    pose proof (SimulationFacts.amax_ge (Rmax x a) xs) as Hle.
    pose proof (Rmax_l x a). pose proof (Rmax_r x a).
    destruct Hy as [<-|[<-|Hy]]; try lra.
    apply IH. right. exact Hy.
Qed.

(** Every sample lies within the histogram's range. *)
Lemma outer_edges_cover (a : list R) (y : R) :
  In y a -> fst (Np.outer_edges a) <= y <= snd (Np.outer_edges a).
Proof.
  destruct a as [|x xs]; [intros []|]. intros Hy.
  pose proof (@amin_below x xs y Hy). pose proof (@amax_above x xs y Hy).
  cbn [Np.outer_edges].
  destruct (Req_dec_T (Np.amin x xs) (Np.amax x xs)); cbn [fst snd]; lra.
Qed.

(** A sample within the range falls into one of the bins. *)
Lemma bin_index_in_range (bins : nat) (first_edge last_edge x : R) :
  (0 < bins)%nat -> first_edge < last_edge ->
  first_edge <= x <= last_edge ->
  (Np.bin_index bins first_edge last_edge x < bins)%nat.
Proof.
  intros Hbins Hrange [Hlo Hhi]. unfold Np.bin_index.
  set (t := (x - first_edge) * (INR bins / (last_edge - first_edge))).
  assert (Hb : 0 < INR bins) by (apply lt_0_INR; exact Hbins).
  assert (Ht : 0 <= t <= INR bins).
  { unfold t. split.
    - apply Rmult_le_pos; [lra|]. apply Rlt_le, Rdiv_lt_0_compat; lra.
    - replace (INR bins) with ((last_edge - first_edge)
                               * (INR bins / (last_edge - first_edge))) at 2
        by (field; lra).
      apply Rmult_le_compat_r; [|lra].
      apply Rlt_le, Rdiv_lt_0_compat; lra. }
  destruct (base_Int_part t) as [Hfloor Hfrac].
  assert (Hz : (0 <= Int_part t <= Z.of_nat bins)%Z).
  { split.
    - apply Z.lt_succ_r. apply lt_IZR. rewrite succ_IZR. lra.
    - apply le_IZR. rewrite <- INR_IZR_INZ. lra. }
  destruct (Z.to_nat (Int_part t) =? bins)%nat eqn:E.
  - apply Nat.eqb_eq in E. lia.
  - apply Nat.eqb_neq in E. lia.
Qed.

(** Adding one sample adds one to the counts of the bins when its bin is
    among them. *)
Lemma counts_with_one_more {A : Type} (f : A -> nat) (x : A) (a : list A)
  (start count : nat) :
  fold_right Z.add 0%Z
    (map (fun i => Z.of_nat (List.length (filter (fun y => (f y =? i)%nat) (x :: a))))
         (seq start count))
  = ((if (start <=? f x)%nat && (f x <? start + count)%nat then 1 else 0)
     + fold_right Z.add 0%Z
         (map (fun i => Z.of_nat (List.length (filter (fun y => (f y =? i)%nat) a)))
              (seq start count)))%Z.
Proof.
  revert start. induction count as [|count IH]; intros start.
  - cbn [seq map fold_right].
    replace (f x <? start + 0)%nat with (f x <? start)%nat
      by (f_equal; lia).
    destruct (start <=? f x)%nat eqn:E1, (f x <? start)%nat eqn:E2;
      cbn; try reflexivity.
    apply Nat.leb_le in E1. apply Nat.ltb_lt in E2. lia.
  - cbn [seq map fold_right filter]. rewrite IH.
    destruct (f x =? start)%nat eqn:E.
    + apply Nat.eqb_eq in E. cbn [List.length].
      replace (start <=? f x)%nat with true by (symmetry; apply Nat.leb_le; lia).
      replace (f x <? start + S count)%nat with true
        by (symmetry; apply Nat.ltb_lt; lia).
      replace (S start <=? f x)%nat with false
        by (symmetry; apply Nat.leb_gt; lia).
      cbn [andb]. lia.
    + apply Nat.eqb_neq in E.
      replace ((S start <=? f x)%nat && (f x <? S start + count)%nat)
        with ((start <=? f x)%nat && (f x <? start + S count)%nat).
      * lia.
      * destruct (start <=? f x)%nat eqn:E1, (S start <=? f x)%nat eqn:E2,
          (f x <? start + S count)%nat eqn:E3,
          (f x <? S start + count)%nat eqn:E4; cbn; try reflexivity;
          repeat match goal with
                 | H : (_ <=? _)%nat = true |- _ => apply Nat.leb_le in H
                 | H : (_ <=? _)%nat = false |- _ => apply Nat.leb_gt in H
                 | H : (_ <? _)%nat = true |- _ => apply Nat.ltb_lt in H
                 | H : (_ <? _)%nat = false |- _ => apply Nat.ltb_ge in H
                 end; lia.
Qed.

(** The bins' counts add up to the number of samples that fall into
    them. *)
Lemma counts_total {A : Type} (f : A -> nat) (a : list A) (bins : nat) :
  (forall x, In x a -> (f x < bins)%nat) ->
  fold_right Z.add 0%Z
    (map (fun i => Z.of_nat (List.length (filter (fun y => (f y =? i)%nat) a)))
         (seq 0 bins))
  = Z.of_nat (List.length a).
Proof.
  induction a as [|x a IH]; intros H.
  - cbn [filter List.length]. generalize (seq 0 bins). intros l.
    induction l; cbn; auto.
  - rewrite counts_with_one_more, IH.
    + replace ((0 <=? f x)%nat && (f x <? 0 + bins)%nat) with true.
      * cbn [List.length]. lia.
      * symmetry. apply andb_true_iff. split;
          [apply Nat.leb_le; lia | apply Nat.ltb_lt; apply H; left; reflexivity].
    + intros y Hy. apply H. right. exact Hy.
Qed.

(** [np.histogram] counts every sample exactly once. *)
Lemma histogram_counts_every_sample (a : list R) (bins : nat) :
  (0 < bins)%nat ->
  fold_right Z.add 0%Z (fst (Np.histogram a bins)) = Z.of_nat (List.length a).
Proof.
  intros Hbins. pose proof (SimulationFacts.outer_edges_apart a) as Hrange.
  pose proof (outer_edges_cover a) as Hcover.
  unfold Np.histogram. destruct (Np.outer_edges a) as [first_edge last_edge].
  cbn [fst snd] in *. apply counts_total.
  intros x Hx. apply bin_index_in_range; auto.
Qed.

Lemma suffix_sums_nonneg (hist : list Z) :
  Forall (fun c => 0 <= c)%Z hist ->
  Forall (fun s => 0 <= s)%Z (suffix_sums hist).
Proof.
  induction 1 as [|x hist Hx Hh IH]; cbn; constructor; [|exact IH].
  destruct (SimulationFacts.suffix_sums_bounded Hh). lia.
Qed.

(** X17: for every non-empty list of simulated annual costs the loss
    exceedance curve starts at 100 percent (every trial costs at least the
    lowest bin edge) and all its values are percentages between 0 and
    100. *)
Theorem loss_exceedance_curve_starts_at_100 (sum_costs : list R) :
  sum_costs <> [] ->
  hd 0 (snd (loss_exceedance_curve sum_costs)) = 100
  /\ Forall (fun y => 0 <= y <= 100) (snd (loss_exceedance_curve sum_costs)).
Proof.
  intros Hne.
  assert (Hn : 0 < INR (List.length sum_costs)).
  { apply lt_0_INR. destruct sum_costs; [contradiction | cbn; lia]. }
  assert (Hbins : (0 < LEC_PRECISION)%nat).
  { unfold LEC_PRECISION, COMPANY_VALUE. cbn. lia. }
  pose proof (@histogram_counts_every_sample sum_costs _ Hbins) as Htotal.
  pose proof (SimulationFacts.histogram_counts sum_costs LEC_PRECISION)
    as [Hlen Hcounts].
  unfold loss_exceedance_curve.
  generalize dependent LEC_PRECISION. intros bins Hbins Htotal Hlen Hcounts.
  destruct (Np.histogram sum_costs bins) as [hist edges]. cbn [fst snd] in *.
  unfold cumrev. rewrite SimulationFacts.reverse_cumsum_is_suffix_sums.
  destruct (SimulationFacts.suffix_sums_bounded Hcounts) as [_ Hup].
  pose proof (suffix_sums_nonneg Hcounts) as Hdown.
  rewrite Htotal in Hup.
  assert (Hscale : forall s, (0 <= s <= Z.of_nat (List.length sum_costs))%Z ->
                             0 <= IZR (s * 100) / INR (List.length sum_costs) <= 100).
  { intros s [Hs0 Hs1]. apply IZR_le in Hs0, Hs1.
    rewrite <- INR_IZR_INZ in Hs1. rewrite mult_IZR. split.
    - apply Rmult_le_pos; [lra|]. apply Rlt_le, Rinv_0_lt_compat, Hn.
    - apply Rmult_le_reg_r with (r := INR (List.length sum_costs));
        [exact Hn|].
      unfold Rdiv. rewrite Rmult_assoc, Rinv_l by lra. nra. }
  split.
  - destruct hist as [|h hist]; [cbn in Hlen; lia|].
    cbn [suffix_sums map hd]. cbn [fold_right] in Htotal. rewrite Htotal.
    rewrite mult_IZR, <- INR_IZR_INZ. field. lra.
  - apply Forall_map. apply Forall_forall. intros s Hs.
    apply Hscale. rewrite Forall_forall in Hup, Hdown.
    split; [apply Hdown | apply Hup]; exact Hs.
Qed.

(** An instance: three simulated years costing 0, 5000 and 120000. *)
Lemma loss_exceedance_curve_starts_at_100_witness :
  hd 0 (snd (loss_exceedance_curve [0; 5000; 120000])) = 100.
Proof.
  apply (@loss_exceedance_curve_starts_at_100 [0; 5000; 120000]).
  discriminate.
Defined.

End SimulationProperties.
